(** * RawOutput: the DNG output plugin (src/raw.imageio/rawoutput.cpp)

    A shallow embedding of the plugin.  The session object, the caller's
    memory and the container library's handle table are explicit state;
    every member function is a computation in a small state monad whose
    failure case stands for a call that returns no result: C++ undefined
    behaviour (a call on a pointer that is not a live handle, a read
    past the end of a buffer) or an exception that leaves the call. *)

From Stdlib Require Import ZArith Ascii String List Bool Lia.
From Stdlib Require Import Init.Byte.
From stdpp Require Import base option gmap.
Import ListNotations.
Local Open Scope Z_scope.

(** ** The CFA pattern encoder (rawoutput.cpp, lines 61-81) *)

Module Cfa.

(** The lambda [channel_to_cfa_index]: an if/else-if chain over the
    seven filter letters with a final [return '\00']. *)
Definition channel_to_cfa_index (c : ascii) : ascii :=
  if Ascii.eqb c "R" then "000"
  else if Ascii.eqb c "G" then "001"
  else if Ascii.eqb c "B" then "002"
  else if Ascii.eqb c "C" then "003"
  else if Ascii.eqb c "M" then "004"
  else if Ascii.eqb c "Y" then "005"
  else if Ascii.eqb c "W" then "006"
  else "000".

(** [std::string(n, c)]. *)
Fixpoint string_fill (n : nat) (c : ascii) : string :=
  match n with
  | O => EmptyString
  | S k => String c (string_fill k c)
  end.

(** [s[i] = c] for [i] inside [s]; an index outside is undefined
    behaviour in C++ and is never produced by the loop below. *)
Fixpoint string_set (s : string) (i : nat) (c : ascii) : string :=
  match s, i with
  | EmptyString, _ => EmptyString
  | String _ t, O => String c t
  | String a t, S k => String a (string_set t k c)
  end.

(** [s[i]] read; [operator[]] at [size()] yields the terminator. *)
Definition string_at (s : string) (i : nat) : ascii :=
  match String.get i s with
  | Some c => c
  | None => "000"%char
  end.

(** The body of the [for (size_t i = 0; i < 4; ++i)] loop, run for the
    indices in [idx]. *)
Fixpoint cfa_loop (filter : string) (idx : list nat) (cfapattern : string)
  : string :=
  match idx with
  | [] => cfapattern
  | i :: rest =>
      cfa_loop filter rest
        (string_set cfapattern i (channel_to_cfa_index (string_at filter i)))
  end.

Definition filter_str_to_cfapattern (filter : string) : string :=
  let cfapattern := string_fill 4 "000" in
  if negb (Nat.eqb (String.length filter) 4) then cfapattern
  else cfa_loop filter [0; 1; 2; 3]%nat cfapattern.

(** The colour codes as the specification lists them: Red=0, Green=1,
    Blue=2, Cyan=3, Magenta=4, Yellow=5, White=6.  Only the seven filter
    letters have a code. *)
Definition spec_color_code (c : ascii) : option byte :=
  if Ascii.eqb c "R" then Some x00
  else if Ascii.eqb c "G" then Some x01
  else if Ascii.eqb c "B" then Some x02
  else if Ascii.eqb c "C" then Some x03
  else if Ascii.eqb c "M" then Some x04
  else if Ascii.eqb c "Y" then Some x05
  else if Ascii.eqb c "W" then Some x06
  else None.

Definition is_filter_letter (c : ascii) : bool :=
  match spec_color_code c with Some _ => true | None => false end.

(** The per-character code of the lenient encoder: the letter's code, and
    Red (0) for anything else. *)
Definition lenient_code (c : ascii) : byte :=
  match spec_color_code c with Some b => b | None => x00 end.

Definition pattern_bytes (s : string) : list byte := list_byte_of_string s.

End Cfa.

(** ** The host framework's types (OpenImageIO/typedesc.h, imageio.h)

    Only their use is in rawoutput.cpp; the declarations below carry the
    fields and the behaviour the plugin relies on. *)

Module Host.

(** A C [float], kept as its IEEE-754 binary32 bit pattern: the plugin
    only stores and copies floats, it never computes with them. *)
Definition float : Type := Z.
Definition f32_zero : float := 0.
Definition f32_one : float := 0x3F800000.

Inductive BASETYPE : Type :=
| UNKNOWN | NONE | UINT8 | INT8 | UINT16 | INT16 | UINT32 | INT32
| UINT64 | INT64 | HALF | FLOAT | DOUBLE | STRING | PTR.

Inductive AGGREGATE : Type :=
| SCALAR | VEC2 | VEC3 | VEC4 | MATRIX33 | MATRIX44.

Inductive VECSEMANTICS : Type :=
| NOSEMANTICS | COLOR | POINT | VECTOR | NORMAL.

Record TypeDesc : Type := mkTypeDesc {
  basetype : BASETYPE;
  aggregate : AGGREGATE;
  vecsemantics : VECSEMANTICS;
  arraylen : Z
}.

#[global] Instance BASETYPE_eq_dec : EqDecision BASETYPE.
Proof. solve_decision. Defined.
#[global] Instance AGGREGATE_eq_dec : EqDecision AGGREGATE.
Proof. solve_decision. Defined.
#[global] Instance VECSEMANTICS_eq_dec : EqDecision VECSEMANTICS.
Proof. solve_decision. Defined.
#[global] Instance TypeDesc_eq_dec : EqDecision TypeDesc.
Proof. solve_decision. Defined.

Definition TypeUnknown : TypeDesc := mkTypeDesc UNKNOWN SCALAR NOSEMANTICS 0.
Definition TypeUInt16 : TypeDesc := mkTypeDesc UINT16 SCALAR NOSEMANTICS 0.
Definition TypeUInt8 : TypeDesc := mkTypeDesc UINT8 SCALAR NOSEMANTICS 0.
Definition TypeFloat : TypeDesc := mkTypeDesc FLOAT SCALAR NOSEMANTICS 0.
Definition TypeString : TypeDesc := mkTypeDesc STRING SCALAR NOSEMANTICS 0.
Definition TypeColor : TypeDesc := mkTypeDesc FLOAT VEC3 COLOR 0.
Definition TypeMatrix33 : TypeDesc := mkTypeDesc FLOAT MATRIX33 NOSEMANTICS 0.

Definition basesize (b : BASETYPE) : Z :=
  match b with
  | UNKNOWN | NONE => 0
  | UINT8 | INT8 => 1
  | UINT16 | INT16 | HALF => 2
  | UINT32 | INT32 | FLOAT => 4
  | UINT64 | INT64 | DOUBLE | STRING | PTR => 8
  end.

Definition aggregate_count (a : AGGREGATE) : Z :=
  match a with
  | SCALAR => 1 | VEC2 => 2 | VEC3 => 3 | VEC4 => 4
  | MATRIX33 => 9 | MATRIX44 => 16
  end.

(** [TypeDesc::size()]. *)
Definition TypeDesc_size (t : TypeDesc) : Z :=
  basesize (basetype t) * aggregate_count (aggregate t)
  * Z.max 1 (arraylen t).

(** The payload of a [ParamValue]. *)
Inductive ParamData : Type :=
| PD_floats (l : list float)
| PD_ints (l : list Z)
| PD_string (s : string).

Record ParamValue : Type := mkParamValue {
  pv_name : string;
  pv_type : TypeDesc;
  pv_data : ParamData
}.

(** [(float* )p->data()]: the floats stored in the value.  The plugin
    performs this cast only on values found with a float aggregate type. *)
Definition data_as_floats (p : ParamValue) : list float :=
  match pv_data p with
  | PD_floats l => l
  | _ => []
  end.

Record ImageSpec : Type := mkImageSpec {
  width : Z;
  height : Z;
  full_x : Z;
  full_y : Z;
  full_width : Z;
  full_height : Z;
  nchannels : Z;
  format : TypeDesc;
  channelformats : list TypeDesc;
  extra_attribs : list ParamValue
}.

(** [ImageSpec()] *)
Definition ImageSpec_default : ImageSpec :=
  mkImageSpec 0 0 0 0 0 0 0 TypeUnknown [] [].

Definition with_nchannels (n : Z) (sp : ImageSpec) : ImageSpec :=
  mkImageSpec (width sp) (height sp) (full_x sp) (full_y sp)
    (full_width sp) (full_height sp) n (format sp) (channelformats sp)
    (extra_attribs sp).

(** Modelled from the spec: [ImageSpec::set_format] is declared in
    imageio.h, which is not among the sources; it sets the pixel format
    (and forgets per-channel formats). *)
Definition set_format (fmt : TypeDesc) (sp : ImageSpec) : ImageSpec :=
  mkImageSpec (width sp) (height sp) (full_x sp) (full_y sp)
    (full_width sp) (full_height sp) (nchannels sp) fmt []
    (extra_attribs sp).

(** [AutoStride], the sentinel for "default stride". *)
Definition AutoStride : Z := - 2 ^ 63.

(** Modelled from the spec: [ImageSpec::auto_stride] resolves the
    sentinel to the natural pixel stride; it changes its first argument,
    never the spec. *)
Definition auto_stride (xstride : Z) (fmt : TypeDesc) (nch : Z) : Z :=
  if Z.eqb xstride AutoStride then nch * TypeDesc_size fmt else xstride.

(** What the plugin takes from the rest of the framework without seeing
    its code: how attribute names are compared during a lookup, and the
    pixel conversion of [ImageOutput::to_native_scanline]. *)
Class HostLib : Type := mkHostLib {
  attr_name_match : string -> string -> bool;
  to_native_scanline :
    ImageSpec -> TypeDesc -> list byte -> Z -> Z -> Z -> Z -> list byte
}.

Section Attributes.
Context {host : HostLib}.

(** Modelled from the spec: [ImageSpec::find_attribute (name, type)] is
    not among the sources.  Attributes are named, typed values; the
    lookup returns the first one with a matching name and, unless the
    searched type is unknown, that type. *)
Definition find_attribute (sp : ImageSpec) (name : string)
    (searchtype : TypeDesc) : option ParamValue :=
  List.find
    (fun p => attr_name_match (pv_name p) name
              && (bool_decide (searchtype = TypeUnknown)
                  || bool_decide (pv_type p = searchtype)))
    (extra_attribs sp).

(** Modelled from the spec: [ImageSpec::get_string_attribute] is not
    among the sources; it yields the string attribute of that name, or
    the default. *)
Definition get_string_attribute (sp : ImageSpec) (name : string)
    (defaultval : string) : string :=
  match find_attribute sp name TypeString with
  | Some p => match pv_data p with
              | PD_string s => s
              | _ => defaultval
              end
  | None => defaultval
  end.

End Attributes.

End Host.

(** ** The container library (tiffio.h) and the caller's memory

    The TIFF library is external.  Its handle table records, for every
    live [TIFF*], the tag writes and the row writes issued on it, in call
    order.  Whether a file can be opened and whether a row write reaches
    the disk is decided by the environment. *)

Module Tiff.
Import Host.

(** The tags rawoutput.cpp names. *)
Inductive ttag : Type :=
| TIFFTAG_SUBFILETYPE | TIFFTAG_IMAGEWIDTH | TIFFTAG_IMAGELENGTH
| TIFFTAG_BITSPERSAMPLE | TIFFTAG_COMPRESSION | TIFFTAG_PHOTOMETRIC
| TIFFTAG_MAKE | TIFFTAG_MODEL | TIFFTAG_ORIENTATION
| TIFFTAG_SAMPLESPERPIXEL | TIFFTAG_ROWSPERSTRIP | TIFFTAG_PLANARCONFIG
| TIFFTAG_SAMPLEFORMAT | TIFFTAG_CFAREPEATPATTERNDIM | TIFFTAG_CFAPATTERN
| TIFFTAG_DNGVERSION | TIFFTAG_UNIQUECAMERAMODEL | TIFFTAG_CFAPLANECOLOR
| TIFFTAG_CFALAYOUT | TIFFTAG_COLORMATRIX1 | TIFFTAG_COLORMATRIX2
| TIFFTAG_ASSHOTNEUTRAL | TIFFTAG_ACTIVEAREA.

#[global] Instance ttag_eq_dec : EqDecision ttag.
Proof. solve_decision. Defined.

(** The tag numbers of tiff.h. *)
Definition tag_number (t : ttag) : Z :=
  match t with
  | TIFFTAG_SUBFILETYPE => 254 | TIFFTAG_IMAGEWIDTH => 256
  | TIFFTAG_IMAGELENGTH => 257 | TIFFTAG_BITSPERSAMPLE => 258
  | TIFFTAG_COMPRESSION => 259 | TIFFTAG_PHOTOMETRIC => 262
  | TIFFTAG_MAKE => 271 | TIFFTAG_MODEL => 272
  | TIFFTAG_ORIENTATION => 274 | TIFFTAG_SAMPLESPERPIXEL => 277
  | TIFFTAG_ROWSPERSTRIP => 278 | TIFFTAG_PLANARCONFIG => 284
  | TIFFTAG_SAMPLEFORMAT => 339 | TIFFTAG_CFAREPEATPATTERNDIM => 33421
  | TIFFTAG_CFAPATTERN => 33422 | TIFFTAG_DNGVERSION => 50706
  | TIFFTAG_UNIQUECAMERAMODEL => 50708 | TIFFTAG_CFAPLANECOLOR => 50710
  | TIFFTAG_CFALAYOUT => 50711 | TIFFTAG_COLORMATRIX1 => 50721
  | TIFFTAG_COLORMATRIX2 => 50722 | TIFFTAG_ASSHOTNEUTRAL => 50728
  | TIFFTAG_ACTIVEAREA => 50829
  end.

Definition COMPRESSION_NONE : Z := 1.
Definition ORIENTATION_TOPLEFT : Z := 1.
Definition PHOTOMETRIC_CFA : Z := 32803.
Definition PLANARCONFIG_CONTIG : Z := 1.
Definition SAMPLEFORMAT_UINT : Z := 1.

(** The variadic part of a [TIFFSetField] call.  For a counted array
    the library reads [count] elements through the pointer; the list is
    what it reads. *)
Inductive TagValue : Type :=
| TV_int (n : Z)
| TV_ascii (s : string)
| TV_raw (s : string)
| TV_bytes (count : Z) (s : string)
| TV_shorts (l : list Z)
| TV_longs (l : list Z)
| TV_floats (count : Z) (l : list float).

(** An open container: its name and mode, the [TIFFSetField] calls and
    the rows stored, oldest first. *)
Record TIFF : Type := mkTIFF {
  tif_name : string;
  tif_mode : string;
  tif_fields : list (ttag * TagValue);
  tif_rows : list (Z * list byte)
}.

Definition add_field (tag : ttag) (v : TagValue) (t : TIFF) : TIFF :=
  mkTIFF (tif_name t) (tif_mode t) (tif_fields t ++ [(tag, v)]) (tif_rows t).

Definition add_row (row : Z) (data : list byte) (t : TIFF) : TIFF :=
  mkTIFF (tif_name t) (tif_mode t) (tif_fields t) (tif_rows t ++ [(row, data)]).

(** The value a tag holds after a series of writes: the last one. *)
Fixpoint field_value (tag : ttag) (fields : list (ttag * TagValue))
  : option TagValue :=
  match fields with
  | [] => None
  | (t, v) :: rest =>
      match field_value tag rest with
      | Some v' => Some v'
      | None => if bool_decide (t = tag) then Some v else None
      end
  end.

(** All the values written to a tag, oldest first. *)
Definition field_writes (tag : ttag) (fields : list (ttag * TagValue))
  : list TagValue :=
  map snd (filter (fun e => bool_decide (fst e = tag)) fields).

(** A [TIFF*]: null or the address of a handle. *)
Definition TIFFptr : Type := option nat.
Definition nullptr : TIFFptr := None.

(** A reference to an [ImageSpec] object owned by the caller. *)
Definition SpecRef : Type := nat.

Record World : Type := mkWorld {
  fs_open_ok : string -> string -> bool; (* can (path, mode) be opened *)
  fs_write_ok : nat -> bool;        (* does the n-th row write succeed *)
  row_writes : nat;                 (* row writes issued so far *)
  handles : gmap nat TIFF;          (* live handles *)
  closed_files : list TIFF;         (* containers closed so far *)
  caller_mem : SpecRef -> ImageSpec (* the caller's ImageSpec objects *)
}.

Definition with_handles (hs : gmap nat TIFF) (w : World) : World :=
  mkWorld (fs_open_ok w) (fs_write_ok w) (row_writes w) hs
    (closed_files w) (caller_mem w).

Definition with_row_write (w : World) : World :=
  mkWorld (fs_open_ok w) (fs_write_ok w) (S (row_writes w)) (handles w)
    (closed_files w) (caller_mem w).

Definition with_closed (t : TIFF) (w : World) : World :=
  mkWorld (fs_open_ok w) (fs_write_ok w) (row_writes w) (handles w)
    (closed_files w ++ [t]) (caller_mem w).

(** Every tag write and every stored row of every container, live or
    closed; used to say that a call left all containers alone. *)
Definition containers (w : World) : list TIFF :=
  map snd (map_to_list (handles w)) ++ closed_files w.

End Tiff.

(** ** The session object and its member functions *)

Module Raw.
Import Host Tiff.

(** [class RawOutput], with the two members of its base class
    [ImageOutput] that the plugin uses ([m_spec], the error message). *)
Record RawOutput : Type := mkRawOutput {
  m_spec : ImageSpec;
  m_errmessage : string;
  m_tif : TIFFptr;
  m_scratch : list byte;
  m_bayerPatternDimensions : list Z;
  m_colormatrix1 : list float;
  m_colormatrix2 : list float;
  m_asShotNeutral : list float
}.

Definition identity33 : list float :=
  [f32_one; f32_zero; f32_zero;
   f32_zero; f32_one; f32_zero;
   f32_zero; f32_zero; f32_one].

(** [RawOutput() {}]: the default member initializers run; [m_tif] has
    none, so the pointer starts with an indeterminate value, which the
    constructor takes here as its argument. *)
Definition RawOutput_new (indeterminate_tif : TIFFptr) : RawOutput :=
  mkRawOutput ImageSpec_default EmptyString indeterminate_tif []
    [2; 2] identity33 identity33 [f32_one; f32_one; f32_one].

Definition set_m_spec (sp : ImageSpec) (s : RawOutput) : RawOutput :=
  mkRawOutput sp (m_errmessage s) (m_tif s) (m_scratch s)
    (m_bayerPatternDimensions s) (m_colormatrix1 s) (m_colormatrix2 s)
    (m_asShotNeutral s).

Definition set_m_errmessage (e : string) (s : RawOutput) : RawOutput :=
  mkRawOutput (m_spec s) e (m_tif s) (m_scratch s)
    (m_bayerPatternDimensions s) (m_colormatrix1 s) (m_colormatrix2 s)
    (m_asShotNeutral s).

Definition set_m_tif (p : TIFFptr) (s : RawOutput) : RawOutput :=
  mkRawOutput (m_spec s) (m_errmessage s) p (m_scratch s)
    (m_bayerPatternDimensions s) (m_colormatrix1 s) (m_colormatrix2 s)
    (m_asShotNeutral s).

Definition set_m_scratch (b : list byte) (s : RawOutput) : RawOutput :=
  mkRawOutput (m_spec s) (m_errmessage s) (m_tif s) b
    (m_bayerPatternDimensions s) (m_colormatrix1 s) (m_colormatrix2 s)
    (m_asShotNeutral s).

Definition set_m_colormatrix1 (m : list float) (s : RawOutput) : RawOutput :=
  mkRawOutput (m_spec s) (m_errmessage s) (m_tif s) (m_scratch s)
    (m_bayerPatternDimensions s) m (m_colormatrix2 s) (m_asShotNeutral s).

Definition set_m_colormatrix2 (m : list float) (s : RawOutput) : RawOutput :=
  mkRawOutput (m_spec s) (m_errmessage s) (m_tif s) (m_scratch s)
    (m_bayerPatternDimensions s) (m_colormatrix1 s) m (m_asShotNeutral s).

Definition set_m_asShotNeutral (v : list float) (s : RawOutput) : RawOutput :=
  mkRawOutput (m_spec s) (m_errmessage s) (m_tif s) (m_scratch s)
    (m_bayerPatternDimensions s) (m_colormatrix1 s) (m_colormatrix2 s) v.

(** [std::copy (src, src + n, dst)] into an array member: the first [n]
    elements of [dst] are replaced.  ([src] holds at least [n] elements
    whenever its type is the searched aggregate.) *)
Definition array_copy {A : Type} (n : nat) (src dst : list A) : list A :=
  firstn n src ++ skipn n dst.

(** [format_name] and [supports]. *)
Definition format_name : string := "raw".
Definition supports (feature : string) : Z :=
  if String.eqb feature "displaywindow" then 1 else 0.

(** *** The monad: session and world threaded; [None] is a call that
    returns no result (undefined behaviour, or an exception thrown out
    of the call). *)
Definition M (A : Type) : Type :=
  RawOutput -> World -> option (A * RawOutput * World).

#[global] Instance M_ret : MRet M := fun A a s w => Some (a, s, w).
#[global] Instance M_bind : MBind M := fun A B f m s w =>
  match m s w with
  | Some (a, s', w') => f a s' w'
  | None => None
  end.

Definition get : M RawOutput := fun s w => Some (s, s, w).
Definition gets {A : Type} (f : RawOutput -> A) : M A :=
  fun s w => Some (f s, s, w).
Definition modify (f : RawOutput -> RawOutput) : M unit :=
  fun s w => Some (tt, f s, w).
Definition undefined {A : Type} : M A := fun _ _ => None.

(** Reading the caller's object through the [const ImageSpec&]. *)
Definition load_spec (r : SpecRef) : M ImageSpec :=
  fun s w => Some (caller_mem w r, s, w).

(** *** The library calls *)

(** [TIFFOpen]: a fresh handle on an empty directory, or null. *)
Definition TIFFOpen (name mode : string) : M TIFFptr :=
  fun s w =>
    if fs_open_ok w name mode then
      let h := fresh (dom (handles w)) in
      Some (Some h, s,
            with_handles (<[h := mkTIFF name mode [] []]> (handles w)) w)
    else Some (nullptr, s, w).

Definition TIFFSetField (tif : TIFFptr) (tag : ttag) (v : TagValue) : M Z :=
  fun s w =>
    match tif with
    | None => None
    | Some h =>
        match handles w !! h with
        | None => None
        | Some t =>
            Some (1, s, with_handles (<[h := add_field tag v t]> (handles w)) w)
        end
    end.

(** [TIFFWriteScanline (tif, buf, row, sample)] with [row] a
    [uint32]: 1 when the row is stored, -1 when the write fails. *)
Definition TIFFWriteScanline (tif : TIFFptr) (buf : list byte) (row : Z)
    (sample : Z) : M Z :=
  fun s w =>
    match tif with
    | None => None
    | Some h =>
        match handles w !! h with
        | None => None
        | Some t =>
            if fs_write_ok w (row_writes w) then
              Some (1, s,
                    with_handles (<[h := add_row row buf t]> (handles w))
                      (with_row_write w))
            else Some (-1, s, with_row_write w)
        end
    end.

Definition TIFFClose (tif : TIFFptr) : M unit :=
  fun s w =>
    match tif with
    | None => None
    | Some h =>
        match handles w !! h with
        | None => None
        | Some t =>
            Some (tt, s, with_closed t (with_handles (delete h (handles w)) w))
        end
    end.

(** Modelled from the spec: [ImageOutput::errorf] is not among the
    sources; it records the formatted message as the session's error,
    after any message already pending. *)
Definition append_error (pending msg : string) : string :=
  match pending with
  | EmptyString => msg
  | _ => String.append pending (String "010" msg)
  end.

Definition errorf (msg : string) : M unit :=
  modify (fun s => set_m_errmessage (append_error (m_errmessage s) msg) s).

Definition could_not_open (name : string) : string :=
  String.append "Could not open "
    (String "034" (String.append name (String "034" EmptyString))).

Inductive OpenMode : Type := Create | AppendSubimage | AppendMIPLevel.

#[global] Instance OpenMode_eq_dec : EqDecision OpenMode.
Proof. solve_decision. Defined.

Definition to_uint32 (n : Z) : Z := n mod 2 ^ 32.
Definition to_size_t (n : Z) : Z := n mod 2 ^ 64.

(** [TIFFSetField (m_tif, tag, v)] with [v] read from the members. *)
Definition SetField (tag : ttag) (v : RawOutput -> TagValue) : M Z :=
  s ← get; TIFFSetField (m_tif s) tag (v s).

Section Members.
Context {host : HostLib}.

(** [RawOutput::open] (lines 115-203). *)
Definition open (name : string) (userspec : SpecRef) (mode : OpenMode)
  : M bool :=
  us ← load_spec userspec;
  modify (set_m_spec us);;
  (* Open the file *)
  tif ← TIFFOpen name (if bool_decide (mode = AppendSubimage) then "a" else "w")%string;
  modify (set_m_tif tif);;
  s ← get;
  if bool_decide (m_tif s = nullptr) then
    errorf (could_not_open name);;
    mret false
  else
    modify (fun s => set_m_spec (with_nchannels 1 (m_spec s)) s);;
    modify (fun s => set_m_spec (set_format TypeUInt16 (m_spec s)) s);;
    SetField TIFFTAG_DNGVERSION
      (fun _ => TV_raw (String "001" (String "001" (String "000"
                         (String "000" EmptyString)))));;
    SetField TIFFTAG_SUBFILETYPE (fun _ => TV_int 0);;
    SetField TIFFTAG_COMPRESSION (fun _ => TV_int COMPRESSION_NONE);;
    SetField TIFFTAG_MAKE (fun _ => TV_ascii EmptyString);;
    SetField TIFFTAG_MODEL (fun _ => TV_ascii EmptyString);;
    SetField TIFFTAG_IMAGEWIDTH (fun s => TV_int (width (m_spec s)));;
    SetField TIFFTAG_IMAGELENGTH (fun s => TV_int (height (m_spec s)));;
    SetField TIFFTAG_BITSPERSAMPLE (fun _ => TV_int 16);;
    SetField TIFFTAG_ROWSPERSTRIP (fun _ => TV_int 1);;
    SetField TIFFTAG_ORIENTATION (fun _ => TV_int ORIENTATION_TOPLEFT);;
    SetField TIFFTAG_PHOTOMETRIC (fun _ => TV_int PHOTOMETRIC_CFA);;
    SetField TIFFTAG_SAMPLESPERPIXEL (fun _ => TV_int 1);;
    SetField TIFFTAG_PLANARCONFIG (fun _ => TV_int PLANARCONFIG_CONTIG);;
    SetField TIFFTAG_SAMPLEFORMAT (fun _ => TV_int SAMPLEFORMAT_UINT);;
    (* Filter pattern stuff *)
    SetField TIFFTAG_CFAREPEATPATTERNDIM
      (fun s => TV_shorts (m_bayerPatternDimensions s));;
    cfapattern ← gets (fun s =>
      Cfa.filter_str_to_cfapattern
        (get_string_attribute (m_spec s) "raw:FilterPattern" EmptyString));
    SetField TIFFTAG_CFAPATTERN (fun _ => TV_bytes 4 cfapattern);;
    SetField TIFFTAG_MAKE (fun _ => TV_ascii "DNG");;
    SetField TIFFTAG_UNIQUECAMERAMODEL (fun _ => TV_ascii "DNG");;
    (* ColorMatrix1 (mandatory) *)
    p ← gets (fun s => find_attribute (m_spec s) "raw:ColorMatrix1" TypeMatrix33);
    match p with
    | Some pv =>
        modify (fun s => set_m_colormatrix1
                  (array_copy 9 (data_as_floats pv) (m_colormatrix1 s)) s)
    | None => mret tt
    end;;
    SetField TIFFTAG_COLORMATRIX1
      (fun s => TV_floats 9 (firstn 9 (m_colormatrix1 s)));;
    (* ColorMatrix2 (optional) *)
    p ← gets (fun s => find_attribute (m_spec s) "raw:ColorMatrix2" TypeMatrix33);
    match p with
    | Some pv =>
        modify (fun s => set_m_colormatrix2
                  (array_copy 9 (data_as_floats pv) (m_colormatrix2 s)) s);;
        SetField TIFFTAG_COLORMATRIX2
          (fun s => TV_floats 9 (firstn 9 (m_colormatrix2 s)));;
        mret tt
    | None => mret tt
    end;;
    (* AsShotNeutral (mandatory) *)
    p ← gets (fun s => find_attribute (m_spec s) "raw:asShotNeutral" TypeColor);
    match p with
    | Some pv =>
        modify (fun s => set_m_asShotNeutral
                  (array_copy 3 (data_as_floats pv) (m_asShotNeutral s)) s)
    | None => mret tt
    end;;
    SetField TIFFTAG_ASSHOTNEUTRAL
      (fun s => TV_floats 3 (firstn 3 (m_asShotNeutral s)));;
    SetField TIFFTAG_CFALAYOUT (fun _ => TV_int 1);;
    SetField TIFFTAG_CFAPLANECOLOR
      (fun _ => TV_bytes 3 (String "000" (String "001" (String "002"
                              EmptyString))));;
    (* Active area *)
    SetField TIFFTAG_ACTIVEAREA
      (fun s => TV_longs
         [to_uint32 (full_y (m_spec s));
          to_uint32 (full_x (m_spec s));
          to_uint32 (full_y (m_spec s) + full_height (m_spec s));
          to_uint32 (full_x (m_spec s) + full_width (m_spec s))]);;
    mret true.

(** [RawOutput::close] (lines 205-272; the [#if 0] block is not
    compiled). *)
Definition close : M bool :=
  s ← get;
  if bool_decide (m_tif s = nullptr) then mret true
  else
    TIFFClose (m_tif s);;
    modify (set_m_tif nullptr);;
    mret true.

(** [~RawOutput() { close(); }] *)
Definition RawOutput_delete : M bool := close.

(** [std::vector<unsigned char>::max_size()] on a 64-bit target. *)
Definition vector_max_size : Z := 2 ^ 63 - 1.

(** [m_scratch.assign (data, data + nbytes)], where [data] is the
    memory that can be read through the pointer.  It copies exactly
    [nbytes] bytes: a length above [max_size()] throws
    [std::length_error], and a length above what [data] holds reads
    past its end; neither returns. *)
Definition scratch_assign (data : list byte) (nbytes : Z) : M unit :=
  if Z.ltb vector_max_size nbytes then undefined
  else if Z.ltb (Z.of_nat (length data)) nbytes then undefined
  else modify (set_m_scratch (firstn (Z.to_nat nbytes) data)).

(** [move_to_scratch] (lines 50-56).  The pointer comparison
    [data != m_scratch.data()] is the flag [data_is_scratch];
    [nbytes] is a [size_t]. *)
Definition move_to_scratch (data_is_scratch : bool) (data : list byte)
    (nbytes : Z) : M (list byte) :=
  s ← get;
  (if bool_decide (m_scratch s = []) || negb data_is_scratch then
     scratch_assign data nbytes
   else mret tt);;
  gets m_scratch.

(** [RawOutput::write_scanline] (lines 274-288).  [data] is the memory
    behind the caller's pointer; it is the caller's own buffer or the
    local conversion vector, never the member [m_scratch].  The local
    [dither] is read before it is given a value, so its value comes
    from outside. *)
Definition write_scanline (y z : Z) (format : TypeDesc) (data : list byte)
    (xstride : Z) (dither : Z) : M bool :=
  s ← get;
  let xstride := auto_stride xstride format (nchannels (m_spec s)) in
  let data := to_native_scanline (m_spec s) format data xstride dither y z in
  let scanline_vals := to_size_t (width (m_spec s)) in
  data ← move_to_scratch false data
           (to_size_t (scanline_vals * TypeDesc_size (Host.format (m_spec s))));
  s ← get;
  TIFFWriteScanline (m_tif s) data (to_uint32 y) 0;;
  mret true.

(** The byte count [scanline_vals * m_spec.format.size()] of
    [write_scanline], as the [size_t] it is. *)
Definition scanline_nbytes (s : RawOutput) : Z :=
  to_size_t (to_size_t (width (m_spec s))
             * TypeDesc_size (Host.format (m_spec s))).

(** The scanline after [to_native_scanline]. *)
Definition converted_row (s : RawOutput) (y z : Z) (format : TypeDesc)
    (data : list byte) (xstride dither : Z) : list byte :=
  to_native_scanline (m_spec s) format data
    (auto_stride xstride format (nchannels (m_spec s))) dither y z.

(** Whether the copy into the scratch buffer returns: the byte count is
    within [max_size()] and within the converted scanline. *)
Definition row_fits (s : RawOutput) (y z : Z) (format : TypeDesc)
    (data : list byte) (xstride dither : Z) : bool :=
  negb (Z.ltb vector_max_size (scanline_nbytes s))
  && negb (Z.ltb (Z.of_nat (length (converted_row s y z format data
                                      xstride dither)))
             (scanline_nbytes s)).

(** The row that [write_scanline] hands to the library.  It is used
    for rows that fit only: there the copy returns, and these are the
    [scanline_nbytes] bytes it copied, all of them inside the converted
    scanline. *)
Definition native_row (s : RawOutput) (y z : Z) (format : TypeDesc)
    (data : list byte) (xstride dither : Z) : list byte :=
  firstn (Z.to_nat (scanline_nbytes s))
    (converted_row s y z format data xstride dither).

(** *** Sequences of calls on one session *)

Inductive Call : Type :=
| call_open (name : string) (userspec : SpecRef) (mode : OpenMode)
| call_write_scanline (y z : Z) (format : TypeDesc) (data : list byte)
    (xstride : Z) (dither : Z)
| call_close.

Definition do_call (c : Call) : M bool :=
  match c with
  | call_open name userspec mode => open name userspec mode
  | call_write_scanline y z format data xstride dither =>
      write_scanline y z format data xstride dither
  | call_close => close
  end.

(** The calls run in order; the results are collected. *)
Fixpoint run (cs : list Call) : M (list bool) :=
  match cs with
  | [] => mret []
  | c :: rest =>
      r ← do_call c;
      rs ← run rest;
      mret (r :: rs)
  end.

Definition is_open_call (c : Call) : bool :=
  match c with call_open _ _ _ => true | _ => false end.

(** No [open] call of [cs] returned failure, [rs] being the results of
    the calls. *)
Fixpoint no_failed_open (cs : list Call) (rs : list bool) : bool :=
  match cs, rs with
  | c :: cs', r :: rs' =>
      (negb (is_open_call c) || r) && no_failed_open cs' rs'
  | _, _ => true
  end.

(** *** What a successful [open] leaves behind, in closed form

    The working spec, the members and the tag writes of the success
    path of [open], read off its body; [open_succeeds] below proves that
    the body computes exactly these. *)

Definition mode_string (mode : OpenMode) : string :=
  if bool_decide (mode = AppendSubimage) then "a" else "w".

Definition working_spec (us : ImageSpec) : ImageSpec :=
  set_format TypeUInt16 (with_nchannels 1 us).

Definition stored_floats (n : nat) (p : option ParamValue)
    (member : list float) : list float :=
  match p with
  | Some pv => array_copy n (data_as_floats pv) member
  | None => member
  end.

Definition opened_session (h : nat) (us : ImageSpec) (s : RawOutput)
  : RawOutput :=
  mkRawOutput (working_spec us) (m_errmessage s) (Some h) (m_scratch s)
    (m_bayerPatternDimensions s)
    (stored_floats 9 (find_attribute us "raw:ColorMatrix1" TypeMatrix33)
       (m_colormatrix1 s))
    (stored_floats 9 (find_attribute us "raw:ColorMatrix2" TypeMatrix33)
       (m_colormatrix2 s))
    (stored_floats 3 (find_attribute us "raw:asShotNeutral" TypeColor)
       (m_asShotNeutral s)).

Definition opened_fields (us : ImageSpec) (s : RawOutput)
  : list (ttag * TagValue) :=
  let s' := opened_session 0 us s in
  [ (TIFFTAG_DNGVERSION,
     TV_raw (String "001" (String "001" (String "000"
               (String "000" EmptyString)))));
    (TIFFTAG_SUBFILETYPE, TV_int 0);
    (TIFFTAG_COMPRESSION, TV_int COMPRESSION_NONE);
    (TIFFTAG_MAKE, TV_ascii EmptyString);
    (TIFFTAG_MODEL, TV_ascii EmptyString);
    (TIFFTAG_IMAGEWIDTH, TV_int (width us));
    (TIFFTAG_IMAGELENGTH, TV_int (height us));
    (TIFFTAG_BITSPERSAMPLE, TV_int 16);
    (TIFFTAG_ROWSPERSTRIP, TV_int 1);
    (TIFFTAG_ORIENTATION, TV_int ORIENTATION_TOPLEFT);
    (TIFFTAG_PHOTOMETRIC, TV_int PHOTOMETRIC_CFA);
    (TIFFTAG_SAMPLESPERPIXEL, TV_int 1);
    (TIFFTAG_PLANARCONFIG, TV_int PLANARCONFIG_CONTIG);
    (TIFFTAG_SAMPLEFORMAT, TV_int SAMPLEFORMAT_UINT);
    (TIFFTAG_CFAREPEATPATTERNDIM, TV_shorts (m_bayerPatternDimensions s));
    (TIFFTAG_CFAPATTERN,
     TV_bytes 4 (Cfa.filter_str_to_cfapattern
                   (get_string_attribute us "raw:FilterPattern" EmptyString)));
    (TIFFTAG_MAKE, TV_ascii "DNG");
    (TIFFTAG_UNIQUECAMERAMODEL, TV_ascii "DNG");
    (TIFFTAG_COLORMATRIX1, TV_floats 9 (firstn 9 (m_colormatrix1 s'))) ]
  ++ match find_attribute us "raw:ColorMatrix2" TypeMatrix33 with
     | Some _ =>
         [ (TIFFTAG_COLORMATRIX2, TV_floats 9 (firstn 9 (m_colormatrix2 s'))) ]
     | None => []
     end
  ++ [ (TIFFTAG_ASSHOTNEUTRAL, TV_floats 3 (firstn 3 (m_asShotNeutral s')));
       (TIFFTAG_CFALAYOUT, TV_int 1);
       (TIFFTAG_CFAPLANECOLOR,
        TV_bytes 3 (String "000" (String "001" (String "002" EmptyString))));
       (TIFFTAG_ACTIVEAREA,
        TV_longs [to_uint32 (full_y us);
                  to_uint32 (full_x us);
                  to_uint32 (full_y us + full_height us);
                  to_uint32 (full_x us + full_width us)]) ].

(** The session a failed [open] leaves behind. *)
Definition failed_session (name : string) (us : ImageSpec) (s : RawOutput)
  : RawOutput :=
  mkRawOutput us (append_error (m_errmessage s) (could_not_open name))
    nullptr (m_scratch s) (m_bayerPatternDimensions s) (m_colormatrix1 s)
    (m_colormatrix2 s) (m_asShotNeutral s).

End Members.

End Raw.

(** ** Concrete sessions used to exercise the statements *)

Module Demo.
Import Host Tiff Raw.

(** Exact name comparison; rows that arrive in the native layout are
    passed through unchanged. *)
Definition host : HostLib :=
  mkHostLib String.eqb (fun _ _ data _ _ _ _ => data).

(** 2.0f on the diagonal. *)
Definition twos : list float :=
  [0x40000000; 0; 0; 0; 0x40000000; 0; 0; 0; 0x40000000].

(** {0.5f, 1.0f, 0.5f} *)
Definition warm : list float := [0x3F000000; 0x3F800000; 0x3F000000].

Definition plain_spec : ImageSpec :=
  mkImageSpec 4 4 0 0 4 4 3 TypeFloat []
    [mkParamValue "raw:FilterPattern" TypeString (PD_string "RGGB")].

Definition calibrated_spec : ImageSpec :=
  mkImageSpec 4 4 0 0 4 4 1 TypeUInt16 []
    [mkParamValue "raw:FilterPattern" TypeString (PD_string "RGGB");
     mkParamValue "raw:ColorMatrix1" TypeMatrix33 (PD_floats twos);
     mkParamValue "raw:ColorMatrix2" TypeMatrix33 (PD_floats twos);
     mkParamValue "raw:asShotNeutral" TypeColor (PD_floats warm)].

Definition bare_spec : ImageSpec :=
  mkImageSpec 2 2 0 0 2 2 4 TypeUInt8 [] [].

(** The caller's objects: reference 0 is [plain_spec], 1 is
    [calibrated_spec], every other one is [bare_spec]. *)
Definition memory (r : SpecRef) : ImageSpec :=
  match r with
  | O => plain_spec
  | S O => calibrated_spec
  | _ => bare_spec
  end.

(** A world with no container yet, in which only paths under
    "/readonly/" cannot be opened and every row write has the outcome
    [write_ok]. *)
Definition world (write_ok : bool) : World :=
  mkWorld (fun name _ => negb (String.prefix "/readonly/" name))
    (fun _ => write_ok) 0 ∅ [] memory.

(** A row of four 16-bit samples 0x2000. *)
Definition row : list byte := [x00; x20; x00; x20; x00; x20; x00; x20].

Definition fresh_session : RawOutput := RawOutput_new nullptr.

Definition session_of {A : Type} (o : option (A * RawOutput * World))
  : RawOutput :=
  match o with Some (_, s, _) => s | None => fresh_session end.

Definition world_of {A : Type} (o : option (A * RawOutput * World)) : World :=
  match o with Some (_, _, w) => w | None => world true end.

(** [open ("out.dng", plain_spec)] on a new session. *)
Definition after_open : option (bool * RawOutput * World) :=
  open (host := host) "out.dng" 0%nat Create fresh_session (world true).
Definition session1 : RawOutput := session_of after_open.
Definition world1 : World := world_of after_open.

(** Then one row and [close]. *)
Definition calls : list Call :=
  [call_write_scanline 0 0 TypeUInt16 row AutoStride 0; call_close].

Definition after_calls : option (list bool * RawOutput * World) :=
  run (host := host) calls session1 world1.
Definition session2 : RawOutput := session_of after_calls.
Definition world2 : World := world_of after_calls.

(** The same [open] in a world whose row writes all fail. *)
Definition after_open_full_disk : option (bool * RawOutput * World) :=
  open (host := host) "out.dng" 0%nat Create fresh_session (world false).

(** [open ("/readonly/out.dng", plain_spec)]. *)
Definition after_failed_open : option (bool * RawOutput * World) :=
  open (host := host) "/readonly/out.dng" 0%nat Create fresh_session
    (world true).

(** [open] with the calibrated spec, and with the bare one. *)
Definition after_open_calibrated : option (bool * RawOutput * World) :=
  open (host := host) "cal.dng" 1%nat Create fresh_session (world true).

Definition after_open_bare : option (bool * RawOutput * World) :=
  open (host := host) "bare.dng" 2%nat Create fresh_session (world true).

(** One session used for two files: first with calibration attributes,
    then, after [close], with none. *)
Definition reuse : list Call :=
  [call_open "first.dng" 1%nat Create; call_close;
   call_open "second.dng" 2%nat Create].

Definition after_reuse : option (list bool * RawOutput * World) :=
  run (host := host) reuse fresh_session (world true).

End Demo.

(** ** The library version string (rawoutput.cpp, lines 95-108)

    The branch compiled without USE_LIBRAW.  [Strutil::replace] is not
    among the sources and stays a parameter. *)

Module Version.

(** [v.find (c)]: the index of the first [c], [None] for [npos]. *)
Fixpoint string_find (c : ascii) (v : string) : option nat :=
  match v with
  | EmptyString => None
  | String a rest =>
      if Ascii.eqb a c then Some O
      else match string_find c rest with
           | Some k => Some (S k)
           | None => None
           end
  end.

(** [v.substr (0, n)], where [npos] takes the whole string. *)
Definition substr0 (n : option nat) (v : string) : string :=
  match n with
  | Some k => String.substring 0 k v
  | None => v
  end.

Section LibraryVersion.
Variable Strutil_replace : string -> string -> string -> string.

Definition raw_imageio_library_version (TIFFGetVersion : string) : string :=
  let v := TIFFGetVersion in
  let v := substr0 (string_find "010" v) v in
  let v := Strutil_replace v ", " " " in
  v.

End LibraryVersion.

(** [raw_output_extensions] *)
Definition raw_output_extensions : list string := ["dng"%string].

End Version.

(** ** Rows of a session, for statements about several calls *)

Module Rows.
Import Host Tiff Raw.

Definition is_write_call (c : Call) : bool :=
  match c with call_write_scanline _ _ _ _ _ _ => true | _ => false end.

Section Stored.
Context {host : HostLib}.

(** The rows the library stores during the [write_scanline] calls of
    [cs]: the row of each call whose row write succeeds, in call order,
    under the row index the library receives.  [ok] tells whether the
    n-th row write succeeds and [n] counts the row writes issued
    before. *)
Fixpoint rows_stored (s : RawOutput) (ok : nat -> bool) (n : nat)
    (cs : list Call) : list (Z * list byte) :=
  match cs with
  | [] => []
  | call_write_scanline y z format data xstride dither :: rest =>
      (if ok n
       then [(to_uint32 y, native_row s y z format data xstride dither)]
       else [])
      ++ rows_stored s ok (S n) rest
  | _ :: rest => rows_stored s ok n rest
  end.

(** Every [write_scanline] call of [cs] has a row the copy accepts. *)
Definition rows_fit (s : RawOutput) (cs : list Call) : bool :=
  forallb
    (fun c =>
       match c with
       | call_write_scanline y z format data xstride dither =>
           row_fits s y z format data xstride dither
       | _ => true
       end)
    cs.

End Stored.

(** The tags a successful [open] writes before and after the optional
    ColorMatrix2 tag, in call order. *)
Definition tags_before_colormatrix2 : list ttag :=
  [TIFFTAG_DNGVERSION; TIFFTAG_SUBFILETYPE; TIFFTAG_COMPRESSION;
   TIFFTAG_MAKE; TIFFTAG_MODEL; TIFFTAG_IMAGEWIDTH; TIFFTAG_IMAGELENGTH;
   TIFFTAG_BITSPERSAMPLE; TIFFTAG_ROWSPERSTRIP; TIFFTAG_ORIENTATION;
   TIFFTAG_PHOTOMETRIC; TIFFTAG_SAMPLESPERPIXEL; TIFFTAG_PLANARCONFIG;
   TIFFTAG_SAMPLEFORMAT; TIFFTAG_CFAREPEATPATTERNDIM; TIFFTAG_CFAPATTERN;
   TIFFTAG_MAKE; TIFFTAG_UNIQUECAMERAMODEL; TIFFTAG_COLORMATRIX1].

Definition tags_after_colormatrix2 : list ttag :=
  [TIFFTAG_ASSHOTNEUTRAL; TIFFTAG_CFALAYOUT; TIFFTAG_CFAPLANECOLOR;
   TIFFTAG_ACTIVEAREA].

(** The seven colour codes. *)
Definition color_codes : list byte := [x00; x01; x02; x03; x04; x05; x06].

End Rows.

(** ** Further concrete inputs *)

Module Demo2.
Import Host Tiff Raw.

(** The container behind handle 0 of [Demo.world1]. *)
Definition container1 : TIFF :=
  match handles Demo.world1 !! 0%nat with
  | Some t => t
  | None => mkTIFF EmptyString EmptyString [] []
  end.

(** Three rows for one session; the world decides which are stored. *)
Definition three_rows : list Call :=
  [call_write_scanline 0 0 TypeUInt16 Demo.row AutoStride 0;
   call_write_scanline 1 0 TypeUInt16 Demo.row AutoStride 0;
   call_write_scanline 2 0 TypeUInt16 Demo.row AutoStride 0].

(** A world in which only the second row write fails. *)
Definition flaky_world : World :=
  mkWorld (fun _ _ => true) (fun n => negb (Nat.eqb n 1)) 0 ∅ [] Demo.memory.

Definition after_open_flaky : option (bool * RawOutput * World) :=
  open (host := Demo.host) "flaky.dng" 0%nat Create Demo.fresh_session
    flaky_world.

Definition container_flaky : TIFF :=
  match handles (Demo.world_of after_open_flaky) !! 0%nat with
  | Some t => t
  | None => mkTIFF EmptyString EmptyString [] []
  end.

(** [open] called again on the session that still holds "out.dng". *)
Definition after_reopen : option (bool * RawOutput * World) :=
  open (host := Demo.host) "second.dng" 2%nat Create Demo.session1
    Demo.world1.

(** One sample only: too short for a row of four. *)
Definition short_row : list byte := [x00; x20].

(** Three rows, the second of them too short. *)
Definition rows_with_short : list Call :=
  [call_write_scanline 0 0 TypeUInt16 Demo.row AutoStride 0;
   call_write_scanline 1 0 TypeUInt16 short_row AutoStride 0;
   call_write_scanline 2 0 TypeUInt16 Demo.row AutoStride 0].

(** After "out.dng" was opened: an [open] that fails. *)
Definition after_failed_reopen : option (list bool * RawOutput * World) :=
  run (host := Demo.host) [call_open "/readonly/out.dng" 0%nat Create]
    Demo.session1 Demo.world1.

(** After "out.dng" was opened: a row, [close], and an [open] of another
    file that succeeds, with a row of its own. *)
Definition calls_reopen : list Call :=
  Demo.calls
  ++ [call_open "again.dng" 0%nat Create;
      call_write_scanline 0 0 TypeUInt16 Demo.row AutoStride 0].

Definition after_calls_reopen : option (list bool * RawOutput * World) :=
  run (host := Demo.host) calls_reopen Demo.session1 Demo.world1.

(** A spec whose display window starts left of and above the origin. *)
Definition offset_spec : ImageSpec :=
  mkImageSpec 4 4 (-1) (-2) 8 8 1 TypeUInt16 [] [].

Definition offset_world : World :=
  mkWorld (fun _ _ => true) (fun _ => true) 0 ∅ [] (fun _ => offset_spec).

(** [Strutil::replace] with its default of replacing the first match
    only, for the one pattern the plugin uses. *)
Fixpoint replace_first_comma_space (v : string) : string :=
  match v with
  | String "," (String " " rest) => String " " rest
  | String a rest => String a (replace_first_comma_space rest)
  | EmptyString => EmptyString
  end.

Definition replace_demo (v pattern replacement : string) : string :=
  replace_first_comma_space v.

Definition tiff_version : string :=
  String.append "LIBTIFF, Version 4.5.0"
    (String "010" "Copyright (c) 1988-1996 Sam Leffler").

End Demo2.

(** * Properties of the CFA pattern encoder *)

Module CfaFacts.
Import Cfa.

Lemma channel_index_lenient (c : ascii) :
  channel_to_cfa_index c = ascii_of_byte (lenient_code c).
Proof.
  unfold channel_to_cfa_index, lenient_code, spec_color_code.
  repeat match goal with
         | |- context [Ascii.eqb c ?k] => destruct (Ascii.eqb c k); [reflexivity|]
         end.
  reflexivity.
Qed.

Lemma letter_code (c : ascii) :
  is_filter_letter c = true -> spec_color_code c = Some (lenient_code c).
Proof.
  unfold is_filter_letter, lenient_code.
  destruct (spec_color_code c); [reflexivity | discriminate].
Qed.

Lemma other_code (c : ascii) :
  is_filter_letter c = false -> lenient_code c = x00.
Proof.
  unfold is_filter_letter, lenient_code.
  destruct (spec_color_code c); [discriminate | reflexivity].
Qed.

(** The loop, unrolled on a string of four characters. *)
Lemma encode_four (c0 c1 c2 c3 : ascii) :
  filter_str_to_cfapattern (String c0 (String c1 (String c2 (String c3 EmptyString))))
  = String (channel_to_cfa_index c0) (String (channel_to_cfa_index c1)
      (String (channel_to_cfa_index c2) (String (channel_to_cfa_index c3)
         EmptyString))).
Proof. reflexivity. Qed.

Lemma encode_other_length (filter : string) :
  String.length filter <> 4%nat ->
  filter_str_to_cfapattern filter = string_fill 4 "000".
Proof.
  intros Hlen. unfold filter_str_to_cfapattern.
  destruct (Nat.eqb_spec (String.length filter) 4%nat) as [E|_]; [contradiction|].
  reflexivity.
Qed.

Lemma four_characters (s : string) :
  String.length s = 4%nat ->
  exists c0 c1 c2 c3,
    s = String c0 (String c1 (String c2 (String c3 EmptyString))).
Proof.
  destruct s as [|c0 [|c1 [|c2 [|c3 [|c4 s]]]]]; try discriminate.
  intros _. exists c0, c1, c2, c3. reflexivity.
Qed.

Lemma pattern_bytes_four (c0 c1 c2 c3 : ascii) :
  pattern_bytes
    (filter_str_to_cfapattern
       (String c0 (String c1 (String c2 (String c3 EmptyString)))))
  = [lenient_code c0; lenient_code c1; lenient_code c2; lenient_code c3].
Proof.
  rewrite encode_four, !channel_index_lenient.
  unfold pattern_bytes, list_byte_of_string. cbn [list_ascii_of_string map].
  rewrite !byte_of_ascii_of_byte. reflexivity.
Qed.

(** C4: on a string of four filter letters the encoded pattern is the
    letter-by-letter colour code of the specification (R=0, G=1, B=2,
    C=3, M=4, Y=5, W=6); on a string whose length is not 4 the pattern
    is four zero bytes. *)
Theorem filter_pattern_encoding (filter : string) :
  (String.length filter = 4%nat ->
   forallb is_filter_letter (list_ascii_of_string filter) = true ->
   map spec_color_code (list_ascii_of_string filter)
   = map Some (pattern_bytes (filter_str_to_cfapattern filter)))
  /\ (String.length filter <> 4%nat ->
      pattern_bytes (filter_str_to_cfapattern filter) = [x00; x00; x00; x00]).
Proof.
  split.
  - intros Hlen Hletters.
    destruct (four_characters filter Hlen) as (c0 & c1 & c2 & c3 & ->).
    rewrite pattern_bytes_four.
    cbn [list_ascii_of_string forallb map] in *.
    repeat (apply andb_prop in Hletters; destruct Hletters as [?H Hletters]).
    rewrite !letter_code by assumption. reflexivity.
  - intros Hlen. rewrite encode_other_length by exact Hlen. reflexivity.
Qed.

Lemma filter_pattern_encoding_witness :
  map spec_color_code (list_ascii_of_string "RGGB")
  = map Some (pattern_bytes (filter_str_to_cfapattern "RGGB"))
  /\ pattern_bytes (filter_str_to_cfapattern "RGB") = [x00; x00; x00; x00].
Proof.
  split.
  - apply (proj1 (filter_pattern_encoding "RGGB")); reflexivity.
  - apply (proj2 (filter_pattern_encoding "RGB")). simpl. lia.
Defined.

(** C10: the encoder always yields four bytes, and on a string of
    length 4 it works character by character: a character outside
    {R,G,B,C,M,Y,W} gives byte 0, a filter letter gives its code. *)
Theorem filter_pattern_total_lenient (filter : string) :
  length (pattern_bytes (filter_str_to_cfapattern filter)) = 4%nat
  /\ (String.length filter = 4%nat ->
      forall (i : nat) (c : ascii),
        String.get i filter = Some c ->
        (is_filter_letter c = false ->
         pattern_bytes (filter_str_to_cfapattern filter) !! i = Some x00)
        /\ (forall b : byte,
              spec_color_code c = Some b ->
              pattern_bytes (filter_str_to_cfapattern filter) !! i = Some b)).
Proof.
  split.
  - destruct (Nat.eq_dec (String.length filter) 4%nat) as [Hlen|Hlen].
    + destruct (four_characters filter Hlen) as (c0 & c1 & c2 & c3 & ->).
      rewrite pattern_bytes_four. reflexivity.
    + rewrite encode_other_length by exact Hlen. reflexivity.
  - intros Hlen i c Hget.
    destruct (four_characters filter Hlen) as (c0 & c1 & c2 & c3 & ->).
    rewrite pattern_bytes_four.
    assert (Hi : [lenient_code c0; lenient_code c1; lenient_code c2;
                  lenient_code c3] !! i = Some (lenient_code c)).
    { destruct i as [|[|[|[|i]]]]; cbn in Hget; try discriminate;
        injection Hget as <-; reflexivity. }
    rewrite Hi. split.
    + intros Hother. rewrite other_code by exact Hother. reflexivity.
    + intros b Hb. unfold lenient_code. rewrite Hb. reflexivity.
Qed.

Lemma filter_pattern_total_lenient_witness :
  length (pattern_bytes (filter_str_to_cfapattern "a longer string")) = 4%nat
  /\ pattern_bytes (filter_str_to_cfapattern "R?GB") !! 1%nat = Some x00
  /\ pattern_bytes (filter_str_to_cfapattern "R?GB") !! 2%nat = Some x01.
Proof.
  split; [|split].
  - apply (proj1 (filter_pattern_total_lenient "a longer string")).
  - apply (proj1 (proj2 (filter_pattern_total_lenient "R?GB") eq_refl
                    1%nat "?"%char eq_refl)).
    reflexivity.
  - apply (proj2 (proj2 (filter_pattern_total_lenient "R?GB") eq_refl
                    2%nat "G"%char eq_refl)).
    reflexivity.
Defined.

End CfaFacts.

(** * Properties *)

Module RawFacts.
Import Host Tiff Raw.

Section Stepping.
Context {host : HostLib}.

(** One step of a computation, by the shape of its first action. *)
Lemma bind_modify {B} (f : RawOutput -> RawOutput) (k : unit -> M B) s w :
  (modify f ≫= k) s w = k tt (f s) w.
Proof. reflexivity. Qed.

Lemma bind_gets {A B} (f : RawOutput -> A) (k : A -> M B) s w :
  (gets f ≫= k) s w = k (f s) s w.
Proof. reflexivity. Qed.

Lemma bind_get {B} (k : RawOutput -> M B) s w :
  (get ≫= k) s w = k s s w.
Proof. reflexivity. Qed.

Lemma bind_mret {A B} (a : A) (k : A -> M B) s w :
  (mret a ≫= k) s w = k a s w.
Proof. reflexivity. Qed.

Lemma bind_load_spec {B} r (k : ImageSpec -> M B) s w :
  (load_spec r ≫= k) s w = k (caller_mem w r) s w.
Proof. reflexivity. Qed.

Lemma bind_assoc {A B C} (m : M A) (f : A -> M B) (g : B -> M C) s w :
  ((m ≫= f) ≫= g) s w = (m ≫= (fun a => f a ≫= g)) s w.
Proof.
  unfold mbind, M_bind. destruct (m s w) as [[[a s'] w']|]; reflexivity.
Qed.

Lemma bind_SetField {B} tag v (k : Z -> M B) s w0 hs h t :
  m_tif s = Some h ->
  (SetField tag v ≫= k) s (with_handles (<[h := t]> hs) w0)
  = k 1 s (with_handles (<[h := add_field tag (v s) t]> hs) w0).
Proof.
  intros Hs. unfold SetField, mbind, M_bind, get, TIFFSetField.
  rewrite Hs. cbn [handles with_handles].
  rewrite lookup_insert_eq, insert_insert_eq. reflexivity.
Qed.

Lemma bind_TIFFOpen_ok {B} name mode (k : TIFFptr -> M B) s w :
  fs_open_ok w name mode = true ->
  (TIFFOpen name mode ≫= k) s w
  = k (Some (fresh (dom (handles w)))) s
      (with_handles
         (<[fresh (dom (handles w)) := mkTIFF name mode [] []]> (handles w)) w).
Proof.
  intros Hok. unfold mbind, M_bind, TIFFOpen. rewrite Hok. reflexivity.
Qed.

Lemma bind_TIFFOpen_fail {B} name mode (k : TIFFptr -> M B) s w :
  fs_open_ok w name mode = false ->
  (TIFFOpen name mode ≫= k) s w = k nullptr s w.
Proof.
  intros Hok. unfold mbind, M_bind, TIFFOpen. rewrite Hok. reflexivity.
Qed.

Ltac step :=
  first
    [ rewrite bind_modify
    | rewrite bind_gets
    | rewrite bind_get
    | rewrite bind_load_spec
    | rewrite bind_mret
    | erewrite bind_SetField by reflexivity
    | rewrite bind_assoc ].

(** Members read back after the setters, and attribute lookups on the
    normalised spec, which has the caller's attributes. *)
Ltac norm :=
  cbn [m_spec m_tif set_m_spec set_m_tif set_m_colormatrix1
       set_m_colormatrix2 set_m_asShotNeutral set_m_errmessage];
  change (find_attribute (set_format TypeUInt16 (with_nchannels 1 ?us)))
    with (find_attribute us);
  change (get_string_attribute (set_format TypeUInt16 (with_nchannels 1 ?us)))
    with (get_string_attribute us).

Ltac steps := repeat (step; norm).

(** A successful [TIFFOpen] makes [open] run its whole success path. *)
Lemma open_succeeds name r mode s w :
  fs_open_ok w name (mode_string mode) = true ->
  open name r mode s w
  = Some (true,
          opened_session (fresh (dom (handles w))) (caller_mem w r) s,
          with_handles
            (<[fresh (dom (handles w)) :=
                 mkTIFF name (mode_string mode)
                   (opened_fields (caller_mem w r) s) []]> (handles w)) w).
Proof.
  intros Hok. unfold open.
  do 2 step.
  rewrite bind_TIFFOpen_ok by exact Hok.
  do 2 step. norm.
  rewrite bool_decide_eq_false_2 by discriminate.
  steps.
  unfold opened_fields, opened_session, stored_floats.
  destruct (find_attribute (caller_mem w r) "raw:ColorMatrix1" TypeMatrix33);
    steps;
    (destruct (find_attribute (caller_mem w r) "raw:ColorMatrix2" TypeMatrix33);
     steps;
     (destruct (find_attribute (caller_mem w r) "raw:asShotNeutral" TypeColor);
      steps; reflexivity)).
Qed.

(** A failed [TIFFOpen] makes [open] stop after recording the error. *)
Lemma open_fails name r mode s w :
  fs_open_ok w name (mode_string mode) = false ->
  open name r mode s w
  = Some (false, failed_session name (caller_mem w r) s, w).
Proof.
  intros Hok. unfold open.
  do 2 step. rewrite bind_TIFFOpen_fail by exact Hok.
  repeat step. reflexivity.
Qed.

(** [close] by cases on the pointer. *)
Lemma close_null s w :
  m_tif s = nullptr -> close s w = Some (true, s, w).
Proof.
  intros Hs. unfold close. step. rewrite Hs. reflexivity.
Qed.

Lemma close_live s w h t :
  m_tif s = Some h -> handles w !! h = Some t ->
  close s w
  = Some (true, set_m_tif nullptr s,
          with_closed t (with_handles (delete h (handles w)) w)).
Proof.
  intros Hs Hw. unfold close. step. rewrite Hs.
  rewrite bool_decide_eq_false_2 by discriminate.
  unfold mbind, M_bind, TIFFClose. rewrite Hw. reflexivity.
Qed.

Lemma close_dangling s w h :
  m_tif s = Some h -> handles w !! h = None -> close s w = None.
Proof.
  intros Hs Hw. unfold close. step. rewrite Hs.
  rewrite bool_decide_eq_false_2 by discriminate.
  unfold mbind, M_bind, TIFFClose. rewrite Hw. reflexivity.
Qed.

(** [write_scanline] in two steps: the copy into the scratch buffer,
    which returns only for a row that fits, then the row write. *)
Lemma write_scanline_steps s w y z format data xstride dither :
  write_scanline y z format data xstride dither s w
  = if row_fits s y z format data xstride dither then
      match TIFFWriteScanline (m_tif s)
              (native_row s y z format data xstride dither) (to_uint32 y) 0
              (set_m_scratch (native_row s y z format data xstride dither) s)
              w
      with
      | Some (_, s', w') => Some (true, s', w')
      | None => None
      end
    else None.
Proof.
  unfold write_scanline, move_to_scratch.
  step. cbv zeta. do 3 step. cbn [negb]. rewrite orb_true_r.
  unfold row_fits, scanline_nbytes, converted_row, native_row, scratch_assign.
  destruct (Z.ltb vector_max_size _); [reflexivity|].
  destruct (Z.ltb (Z.of_nat _) _); [reflexivity|].
  cbn [negb andb]. repeat step.
  unfold mbind, M_bind. cbn [m_tif set_m_scratch].
  destruct (TIFFWriteScanline _ _ _ _ _ _) as [[[r s'] w']|]; reflexivity.
Qed.

Lemma write_scanline_live s w h t y z format data xstride dither :
  m_tif s = Some h -> handles w !! h = Some t ->
  row_fits s y z format data xstride dither = true ->
  write_scanline y z format data xstride dither s w
  = Some (true,
          set_m_scratch (native_row s y z format data xstride dither) s,
          if fs_write_ok w (row_writes w) then
            with_handles
              (<[h := add_row (to_uint32 y)
                        (native_row s y z format data xstride dither) t]>
                 (handles w))
              (with_row_write w)
          else with_row_write w).
Proof.
  intros Hs Hw Hfit. rewrite write_scanline_steps, Hfit.
  unfold TIFFWriteScanline. rewrite Hs, Hw.
  destruct (fs_write_ok w (row_writes w)); reflexivity.
Qed.

Lemma write_scanline_unfit s w y z format data xstride dither :
  row_fits s y z format data xstride dither = false ->
  write_scanline y z format data xstride dither s w = None.
Proof.
  intros Hfit. rewrite write_scanline_steps, Hfit. reflexivity.
Qed.

Lemma write_scanline_not_live s w y z format data xstride dither :
  (m_tif s = nullptr \/ exists h, m_tif s = Some h /\ handles w !! h = None) ->
  write_scanline y z format data xstride dither s w = None.
Proof.
  intros Hs. rewrite write_scanline_steps.
  destruct (row_fits s y z format data xstride dither); [|reflexivity].
  unfold TIFFWriteScanline.
  destruct Hs as [-> | (h & -> & ->)]; reflexivity.
Qed.

(** The session and world after a [write_scanline] that returns. *)
Lemma write_scanline_returns s w y z format data xstride dither r s' w' :
  write_scanline y z format data xstride dither s w = Some (r, s', w') ->
  exists h t,
    m_tif s = Some h /\ handles w !! h = Some t
    /\ row_fits s y z format data xstride dither = true
    /\ r = true
    /\ s' = set_m_scratch (native_row s y z format data xstride dither) s
    /\ w' = (if fs_write_ok w (row_writes w) then
               with_handles
                 (<[h := add_row (to_uint32 y)
                           (native_row s y z format data xstride dither) t]>
                    (handles w))
                 (with_row_write w)
             else with_row_write w).
Proof.
  destruct (row_fits s y z format data xstride dither) eqn:Hfit;
    [|rewrite write_scanline_unfit by exact Hfit; discriminate].
  destruct (m_tif s) as [h|] eqn:Hs;
    [|rewrite write_scanline_not_live by (left; exact Hs); discriminate].
  destruct (handles w !! h) as [t|] eqn:Hw;
    [|rewrite write_scanline_not_live by (right; eauto); discriminate].
  rewrite (write_scanline_live _ _ _ _ _ _ _ _ _ _ Hs Hw Hfit).
  intros [= <- <- <-]. exists h, t.
  repeat split; (reflexivity || assumption).
Qed.

(** No call writes to the caller's objects. *)
Lemma do_call_caller_mem c s w r s' w' :
  do_call c s w = Some (r, s', w') -> caller_mem w' = caller_mem w.
Proof.
  destruct c as [name userspec mode | y z format data xstride dither | ];
    cbn [do_call].
  - destruct (fs_open_ok w name (mode_string mode)) eqn:Hok.
    + rewrite open_succeeds by exact Hok. intros [= _ _ <-]. reflexivity.
    + rewrite open_fails by exact Hok. intros [= _ _ <-]. reflexivity.
  - intros Hwrite.
    destruct (write_scanline_returns _ _ _ _ _ _ _ _ _ _ _ Hwrite)
      as (h & t & _ & _ & _ & _ & _ & ->).
    destruct (fs_write_ok w (row_writes w)); reflexivity.
  - destruct (m_tif s) as [h|] eqn:Hs.
    + destruct (handles w !! h) as [t|] eqn:Hw.
      * rewrite (close_live _ _ _ _ Hs Hw). intros [= _ _ <-]. reflexivity.
      * rewrite (close_dangling _ _ _ Hs Hw). discriminate.
    + rewrite close_null by exact Hs. intros [= _ _ <-]. reflexivity.
Qed.

(** [write_scanline] and [close] leave the working spec alone. *)
Lemma do_call_m_spec c s w r s' w' :
  is_open_call c = false ->
  do_call c s w = Some (r, s', w') -> m_spec s' = m_spec s.
Proof.
  destruct c as [name userspec mode | y z format data xstride dither | ];
    cbn [do_call is_open_call]; intros Hc; try discriminate.
  - intros Hwrite.
    destruct (write_scanline_returns _ _ _ _ _ _ _ _ _ _ _ Hwrite)
      as (h & t & _ & _ & _ & _ & -> & _).
    reflexivity.
  - destruct (m_tif s) as [h|] eqn:Hs.
    + destruct (handles w !! h) as [t|] eqn:Hw.
      * rewrite (close_live _ _ _ _ Hs Hw). intros [= _ <- _]. reflexivity.
      * rewrite (close_dangling _ _ _ Hs Hw). discriminate.
    + rewrite close_null by exact Hs. intros [= _ <- _]. reflexivity.
Qed.

Lemma run_cons c cs s w :
  run (c :: cs) s w
  = match do_call c s w with
    | Some (r, s1, w1) =>
        match run cs s1 w1 with
        | Some (rs, s2, w2) => Some (r :: rs, s2, w2)
        | None => None
        end
    | None => None
    end.
Proof.
  cbn [run]. unfold mbind, M_bind.
  destruct (do_call c s w) as [[[r s1] w1]|]; [|reflexivity].
  destruct (run cs s1 w1) as [[[rs s2] w2]|]; reflexivity.
Qed.

Lemma run_caller_mem cs : forall s w rs s' w',
  run cs s w = Some (rs, s', w') -> caller_mem w' = caller_mem w.
Proof.
  induction cs as [|c cs IH]; intros s w rs s' w'.
  - intros [= _ _ <-]. reflexivity.
  - rewrite run_cons.
    destruct (do_call c s w) as [[[r s1] w1]|] eqn:Hc; [|discriminate].
    destruct (run cs s1 w1) as [[[rs1 s2] w2]|] eqn:Hr; [|discriminate].
    intros [= _ _ <-].
    rewrite (IH _ _ _ _ _ Hr). exact (do_call_caller_mem _ _ _ _ _ _ Hc).
Qed.

(** The container a successful [open] creates. *)
Lemma open_succeeds_container name r mode s w :
  fs_open_ok w name (mode_string mode) = true ->
  exists s' w' h t,
    open name r mode s w = Some (true, s', w')
    /\ m_tif s' = Some h /\ handles w' !! h = Some t
    /\ s' = opened_session h (caller_mem w r) s
    /\ tif_fields t = opened_fields (caller_mem w r) s
    /\ handles w !! h = None.
Proof.
  intros Hok. rewrite open_succeeds by exact Hok.
  eexists _, _, _, _. split; [reflexivity|]. split; [reflexivity|].
  split; [apply lookup_insert_eq|]. split; [reflexivity|].
  split; [reflexivity|].
  apply not_elem_of_dom, is_fresh.
Qed.

Lemma open_result name r mode s w ok s' w' :
  open name r mode s w = Some (ok, s', w') ->
  ok = fs_open_ok w name (mode_string mode).
Proof.
  destruct (fs_open_ok w name (mode_string mode)) eqn:Hok.
  - rewrite open_succeeds by exact Hok. intros [= <- _ _]. reflexivity.
  - rewrite open_fails by exact Hok. intros [= <- _ _]. reflexivity.
Qed.

(** C3 (amended): in a successful [open] the Make and Model tags are
    both first written as empty strings; Make is then overwritten with
    "DNG" and the UniqueCameraModel tag is written as "DNG", while Model
    is not written again.  Afterwards Make and UniqueCameraModel hold
    "DNG" and Model holds the empty string. *)
Theorem open_make_and_unique_model_are_DNG name r mode s w :
  fs_open_ok w name (mode_string mode) = true ->
  exists s' w' h t,
    open name r mode s w = Some (true, s', w')
    /\ m_tif s' = Some h /\ handles w' !! h = Some t
    /\ field_writes TIFFTAG_MAKE (tif_fields t)
       = [TV_ascii EmptyString; TV_ascii "DNG"]
    /\ field_writes TIFFTAG_MODEL (tif_fields t) = [TV_ascii EmptyString]
    /\ field_writes TIFFTAG_UNIQUECAMERAMODEL (tif_fields t) = [TV_ascii "DNG"]
    /\ field_value TIFFTAG_MAKE (tif_fields t) = Some (TV_ascii "DNG")
    /\ field_value TIFFTAG_MODEL (tif_fields t) = Some (TV_ascii EmptyString)
    /\ field_value TIFFTAG_UNIQUECAMERAMODEL (tif_fields t)
       = Some (TV_ascii "DNG").
Proof.
  intros Hok.
  destruct (open_succeeds_container name r mode s w Hok)
    as (s' & w' & h & t & Hopen & Htif & Hh & _ & Hfields & _).
  exists s', w', h, t. rewrite Hfields. unfold opened_fields.
  repeat (split; [assumption|]).
  destruct (find_attribute (caller_mem w r) "raw:ColorMatrix2" TypeMatrix33);
    repeat split; reflexivity.
Qed.

(** C5: when the caller's spec has no raw:ColorMatrix2 matrix attribute,
    no container carries a ColorMatrix2 tag write after [open] unless it
    was there, untouched, before; when the attribute is present with its
    nine values and [open] succeeds, the tag is written once, with
    exactly those values. *)
Theorem colormatrix2_tag_follows_attribute name r mode s w ok s' w' :
  open name r mode s w = Some (ok, s', w') ->
  (find_attribute (caller_mem w r) "raw:ColorMatrix2" TypeMatrix33 = None ->
   forall h t,
     handles w' !! h = Some t ->
     handles w !! h = Some t
     \/ field_writes TIFFTAG_COLORMATRIX2 (tif_fields t) = [])
  /\ (forall pv,
        find_attribute (caller_mem w r) "raw:ColorMatrix2" TypeMatrix33
        = Some pv ->
        length (data_as_floats pv) = 9%nat ->
        ok = true ->
        exists h t,
          m_tif s' = Some h /\ handles w' !! h = Some t
          /\ field_writes TIFFTAG_COLORMATRIX2 (tif_fields t)
             = [TV_floats 9 (data_as_floats pv)]).
Proof.
  intros Hopen. split.
  - intros Hnone h t Hh.
    destruct (fs_open_ok w name (mode_string mode)) eqn:Hok.
    + rewrite open_succeeds in Hopen by exact Hok.
      injection Hopen as _ _ <-. cbn [handles with_handles] in Hh.
      destruct (decide (h = fresh (dom (handles w)))) as [->|Hne].
      * rewrite lookup_insert_eq in Hh. injection Hh as <-. right.
        cbn [tif_fields]. unfold opened_fields. rewrite Hnone. reflexivity.
      * rewrite lookup_insert_ne in Hh by congruence. left. exact Hh.
    + rewrite open_fails in Hopen by exact Hok.
      injection Hopen as _ _ <-. left. exact Hh.
  - intros pv Hsome Hlen ->.
    pose proof (open_result _ _ _ _ _ _ _ _ Hopen) as Hok. symmetry in Hok.
    destruct (open_succeeds_container name r mode s w Hok)
      as (s1 & w1 & h & t & Hopen1 & Htif & Hh & _ & Hfields & _).
    rewrite Hopen in Hopen1. injection Hopen1 as <- <-.
    exists h, t. split; [exact Htif|]. split; [exact Hh|].
    rewrite Hfields. unfold opened_fields, opened_session, stored_floats.
    rewrite Hsome. cbn [m_colormatrix2]. unfold array_copy.
    rewrite (firstn_all2 (data_as_floats pv)) by (rewrite Hlen; reflexivity).
    rewrite firstn_app, <- Hlen, firstn_all, Nat.sub_diag, firstn_0, app_nil_r.
    reflexivity.
Qed.

(** A call other than an [open] that fails keeps a normalised working
    spec normalised. *)
Lemma do_call_keeps_normalised c s w r s' w' :
  nchannels (m_spec s) = 1 /\ format (m_spec s) = TypeUInt16 ->
  do_call c s w = Some (r, s', w') ->
  negb (is_open_call c) || r = true ->
  nchannels (m_spec s') = 1 /\ format (m_spec s') = TypeUInt16.
Proof.
  intros Hnorm Hcall Hc.
  destruct (is_open_call c) eqn:Hopen.
  - destruct c as [name userspec mode | |]; try discriminate.
    cbn [negb orb] in Hc. subst r. cbn [do_call] in Hcall.
    pose proof (open_result _ _ _ _ _ _ _ _ Hcall) as Hok. symmetry in Hok.
    rewrite open_succeeds in Hcall by exact Hok.
    injection Hcall as <- _. split; reflexivity.
  - rewrite (do_call_m_spec _ _ _ _ _ _ Hopen Hcall). exact Hnorm.
Qed.

Lemma run_keeps_normalised cs : forall rs s w s' w',
  nchannels (m_spec s) = 1 /\ format (m_spec s) = TypeUInt16 ->
  run cs s w = Some (rs, s', w') ->
  no_failed_open cs rs = true ->
  nchannels (m_spec s') = 1 /\ format (m_spec s') = TypeUInt16.
Proof.
  induction cs as [|c cs IH]; intros rs s w s' w' Hnorm.
  - intros [= _ <- _] _. exact Hnorm.
  - rewrite run_cons.
    destruct (do_call c s w) as [[[r s1] w1]|] eqn:Hc; [|discriminate].
    destruct (run cs s1 w1) as [[[rs1 s2] w2]|] eqn:Hr; [|discriminate].
    intros [= <- <- _] Hno. cbn [no_failed_open] in Hno.
    apply andb_prop in Hno as [Hc0 Hno].
    apply (IH _ _ _ _ _ (do_call_keeps_normalised _ _ _ _ _ _ Hnorm Hc Hc0)
             Hr Hno).
Qed.

(** C7 (amended): after a successful [open] the working spec has one
    channel and the 16-bit unsigned format, whatever the caller's spec
    asked for, and both fields keep these values through every later
    call of the session, [write_scanline], [close] and [open] alike, as
    long as no later [open] fails. *)
Theorem working_spec_one_channel_uint16 name r mode s w s1 w1 cs rs s2 w2 :
  open name r mode s w = Some (true, s1, w1) ->
  run cs s1 w1 = Some (rs, s2, w2) ->
  no_failed_open cs rs = true ->
  (nchannels (m_spec s1) = 1 /\ format (m_spec s1) = TypeUInt16)
  /\ (nchannels (m_spec s2) = 1 /\ format (m_spec s2) = TypeUInt16).
Proof.
  intros Hopen Hrun Hno.
  pose proof (open_result _ _ _ _ _ _ _ _ Hopen) as Hok. symmetry in Hok.
  rewrite open_succeeds in Hopen by exact Hok. injection Hopen as <- <-.
  assert (Hnorm : nchannels (m_spec (opened_session (fresh (dom (handles w)))
                                       (caller_mem w r) s)) = 1
                  /\ format (m_spec (opened_session (fresh (dom (handles w)))
                                       (caller_mem w r) s)) = TypeUInt16)
    by (split; reflexivity).
  split; [exact Hnorm|].
  exact (run_keeps_normalised _ _ _ _ _ _ Hnorm Hrun Hno).
Qed.

Lemma string_append_assoc (a b c : string) :
  String.append (String.append a b) c = String.append a (String.append b c).
Proof.
  induction a as [|x a IH]; [reflexivity|].
  change (String x (String.append (String.append a b) c)
          = String x (String.append a (String.append b c))).
  rewrite IH. reflexivity.
Qed.

(** C8: when the file cannot be opened, [open] returns failure and
    records the message Could not open "name", with the file's name
    between the quotes, after whatever message was pending (after
    nothing when none was); it leaves the pointer null and the world,
    hence every container, exactly as it was: no tag write is issued. *)
Theorem open_failure_writes_nothing name r mode s w :
  fs_open_ok w name (mode_string mode) = false ->
  exists s' w' pending,
    open name r mode s w = Some (false, s', w')
    /\ m_errmessage s'
       = String.append pending
           (String.append "Could not open "
              (String "034" (String.append name (String "034" EmptyString))))
    /\ (m_errmessage s = EmptyString -> pending = EmptyString)
    /\ m_tif s' = nullptr
    /\ w' = w.
Proof.
  intros Hok. rewrite open_fails by exact Hok.
  destruct (m_errmessage s) as [|x e] eqn:He.
  - eexists _, _, EmptyString. split; [reflexivity|].
    cbn [failed_session m_errmessage m_tif]. rewrite He.
    repeat split; reflexivity.
  - eexists _, _, (String.append (String x e) (String "010" EmptyString)).
    split; [reflexivity|]. cbn [failed_session m_errmessage m_tif].
    rewrite He. split.
    + rewrite string_append_assoc. reflexivity.
    + split; [discriminate|]. split; reflexivity.
Qed.

(** C9: no sequence of [open], [write_scanline] and [close] calls
    changes any of the caller's ImageSpec objects; a single [open]
    leaves in the session a copy of the caller's spec, normalised to one
    channel and the 16-bit format when the file was opened and verbatim
    when it was not. *)
Theorem caller_spec_never_mutated cs s w rs s' w' :
  run cs s w = Some (rs, s', w') ->
  (forall r, caller_mem w' r = caller_mem w r)
  /\ (forall name r mode,
        cs = [call_open name r mode] ->
        m_spec s'
        = if fs_open_ok w name (mode_string mode)
          then set_format TypeUInt16 (with_nchannels 1 (caller_mem w r))
          else caller_mem w r).
Proof.
  intros Hrun. split.
  - intros r. rewrite (run_caller_mem _ _ _ _ _ _ Hrun). reflexivity.
  - intros name r mode ->. rewrite run_cons in Hrun. cbn [do_call run] in Hrun.
    destruct (fs_open_ok w name (mode_string mode)) eqn:Hok.
    + rewrite open_succeeds in Hrun by exact Hok.
      injection Hrun as _ <- _. reflexivity.
    + rewrite open_fails in Hrun by exact Hok.
      injection Hrun as _ <- _. reflexivity.
Qed.

(** X18: on a session whose pointer is null or a live handle, two
    [close] calls in a row both return success, and the second changes
    nothing. *)
Lemma close_twice s w :
  (m_tif s = nullptr \/ exists h t, m_tif s = Some h /\ handles w !! h = Some t) ->
  exists s1 w1,
    close s w = Some (true, s1, w1) /\ close s1 w1 = Some (true, s1, w1).
Proof.
  intros [Hs | (h & t & Hs & Hw)].
  - exists s, w. rewrite close_null by exact Hs. split; reflexivity.
  - rewrite (close_live _ _ _ _ Hs Hw). eexists _, _.
    split; [reflexivity|]. apply close_null. reflexivity.
Qed.

(** X19: after an [open] that failed, [close] returns success and
    changes neither the session nor the world. *)
Lemma close_after_failed_open name r mode s w s1 w1 :
  open name r mode s w = Some (false, s1, w1) ->
  close s1 w1 = Some (true, s1, w1).
Proof.
  intros Hopen.
  pose proof (open_result _ _ _ _ _ _ _ _ Hopen) as Hok. symmetry in Hok.
  rewrite open_fails in Hopen by exact Hok. injection Hopen as <- <-.
  apply close_null. reflexivity.
Qed.

(** On a live session and a row that fits, [write_scanline] returns
    success whatever the library's row write returned, and issues
    exactly one row write. *)
Lemma write_scanline_ignores_write_result s w h t y z format data xstride dither :
  m_tif s = Some h -> handles w !! h = Some t ->
  row_fits s y z format data xstride dither = true ->
  exists s' w',
    write_scanline y z format data xstride dither s w = Some (true, s', w')
    /\ row_writes w' = S (row_writes w)
    /\ (fs_write_ok w (row_writes w) = false -> handles w' = handles w).
Proof.
  intros Hs Hw Hfit.
  rewrite (write_scanline_live _ _ _ _ _ _ _ _ _ _ Hs Hw Hfit).
  eexists _, _. split; [reflexivity|].
  destruct (fs_write_ok w (row_writes w)); split; try reflexivity.
  discriminate.
Qed.


End Stepping.

(** ** The statements at concrete sessions *)

(** C1 (the code departs from it): a row write that fails at the
    library level is not reported.  On a session opened on "out.dng", in
    a world whose row writes fail, [write_scanline] issues one row
    write, the write fails and stores nothing, and the call returns
    success. *)
Theorem write_scanline_succeeds_on_failed_row_write :
  let s1 := Demo.session_of Demo.after_open_full_disk in
  let w1 := Demo.world_of Demo.after_open_full_disk in
  Demo.after_open_full_disk = Some (true, s1, w1)
  /\ fs_write_ok w1 (row_writes w1) = false
  /\ exists s2 w2,
       write_scanline (host := Demo.host) 0 0 TypeUInt16 Demo.row AutoStride 0
         s1 w1
       = Some (true, s2, w2)
       /\ row_writes w2 = S (row_writes w1)
       /\ handles w2 = handles w1.
Proof.
  cbv zeta. split; [vm_compute; reflexivity|]. split; [reflexivity|].
  destruct (write_scanline_ignores_write_result (host := Demo.host)
              (Demo.session_of Demo.after_open_full_disk)
              (Demo.world_of Demo.after_open_full_disk)
              0%nat (mkTIFF "out.dng" "w"
                       (opened_fields (host := Demo.host) Demo.plain_spec
                          Demo.fresh_session) [])
              0 0 TypeUInt16 Demo.row AutoStride 0)
    as (s2 & w2 & Hw & Hn & Hh).
  - reflexivity.
  - vm_compute. reflexivity.
  - vm_compute. reflexivity.
  - exists s2, w2. split; [exact Hw|]. split; [exact Hn|].
    apply Hh. reflexivity.
Qed.

(** C2 (the code departs from it): [close] on a freshly constructed
    session is not a harmless success.  The constructor leaves [m_tif]
    unset; with a non-null value there, [close] hands it to [TIFFClose]:
    undefined behaviour when it is no handle, and the closing of
    somebody else's container when it happens to be one. *)
Theorem close_on_fresh_session_uses_unset_pointer :
  close (RawOutput_new (Some 7%nat)) (Demo.world true) = None
  /\ exists s' w',
       close (RawOutput_new (Some 0%nat)) Demo.world1 = Some (true, s', w')
       /\ handles Demo.world1 !! 0%nat <> None
       /\ handles w' !! 0%nat = None.
Proof.
  split; [reflexivity|].
  eexists _, _. split; [vm_compute; reflexivity|].
  split; [vm_compute; discriminate | vm_compute; reflexivity].
Qed.

(** C3 as stated fails: after a successful [open] the Model tag was
    written once, as the empty string, and does not hold "DNG". *)
Lemma open_leaves_model_tag_empty :
  exists t,
    Demo.after_open = Some (true, Demo.session1, Demo.world1)
    /\ m_tif Demo.session1 = Some 0%nat
    /\ handles Demo.world1 !! 0%nat = Some t
    /\ field_writes TIFFTAG_MODEL (tif_fields t) = [TV_ascii EmptyString]
    /\ field_value TIFFTAG_MODEL (tif_fields t) <> Some (TV_ascii "DNG").
Proof.
  eexists. split; [vm_compute; reflexivity|]. split; [reflexivity|].
  split; [vm_compute; reflexivity|]. split; [reflexivity|].
  vm_compute. discriminate.
Qed.

Lemma open_make_and_unique_model_are_DNG_witness :
  fs_open_ok (Demo.world true) "out.dng" "w" = true
  /\ exists s' w' h t,
       Demo.after_open = Some (true, s', w')
       /\ m_tif s' = Some h /\ handles w' !! h = Some t
       /\ field_value TIFFTAG_MAKE (tif_fields t) = Some (TV_ascii "DNG")
       /\ field_value TIFFTAG_MODEL (tif_fields t) = Some (TV_ascii EmptyString)
       /\ field_value TIFFTAG_UNIQUECAMERAMODEL (tif_fields t)
          = Some (TV_ascii "DNG").
Proof.
  split; [reflexivity|].
  destruct (open_make_and_unique_model_are_DNG (host := Demo.host)
              "out.dng" 0%nat Create Demo.fresh_session (Demo.world true)
              eq_refl)
    as (s' & w' & h & t & Ho & Hs & Hh & _ & _ & _ & H1 & H2 & H3).
  exists s', w', h, t. repeat split; assumption.
Defined.

Lemma colormatrix2_tag_follows_attribute_witness :
  (forall h t,
     handles (Demo.world_of Demo.after_open_bare) !! h = Some t ->
     handles (Demo.world true) !! h = Some t
     \/ field_writes TIFFTAG_COLORMATRIX2 (tif_fields t) = [])
  /\ exists h t,
       m_tif (Demo.session_of Demo.after_open_calibrated) = Some h
       /\ handles (Demo.world_of Demo.after_open_calibrated) !! h = Some t
       /\ field_writes TIFFTAG_COLORMATRIX2 (tif_fields t)
          = [TV_floats 9 Demo.twos].
Proof.
  assert (Hbare : open (host := Demo.host) "bare.dng" 2%nat Create
                    Demo.fresh_session (Demo.world true)
                  = Some (true, Demo.session_of Demo.after_open_bare,
                          Demo.world_of Demo.after_open_bare))
    by (vm_compute; reflexivity).
  assert (Hcal : open (host := Demo.host) "cal.dng" 1%nat Create
                   Demo.fresh_session (Demo.world true)
                 = Some (true, Demo.session_of Demo.after_open_calibrated,
                         Demo.world_of Demo.after_open_calibrated))
    by (vm_compute; reflexivity).
  split.
  - apply (proj1 (colormatrix2_tag_follows_attribute _ _ _ _ _ _ _ _ Hbare)).
    reflexivity.
  - apply (proj2 (colormatrix2_tag_follows_attribute _ _ _ _ _ _ _ _ Hcal)
             (mkParamValue "raw:ColorMatrix2" TypeMatrix33
                (PD_floats Demo.twos)));
      reflexivity.
Defined.

(** C6 (the code departs from it): the defaults are kept in members that
    [open] overwrites, so they are only there for the first file of a
    session.  A session that wrote "first.dng" with calibration
    attributes and is then opened on "second.dng" with a spec that has
    none writes the first file's matrix and neutral vector, not the
    identity and {1,1,1}. *)
Theorem reused_session_writes_stale_calibration :
  let s' := Demo.session_of Demo.after_reuse in
  let w' := Demo.world_of Demo.after_reuse in
  Demo.after_reuse = Some ([true; true; true], s', w')
  /\ extra_attribs (Demo.memory 2%nat) = []
  /\ exists t,
       m_tif s' = Some 0%nat /\ handles w' !! 0%nat = Some t
       /\ tif_name t = "second.dng"%string
       /\ field_writes TIFFTAG_COLORMATRIX1 (tif_fields t)
          = [TV_floats 9 Demo.twos]
       /\ field_writes TIFFTAG_ASSHOTNEUTRAL (tif_fields t)
          = [TV_floats 3 Demo.warm]
       /\ Demo.twos <> identity33
       /\ Demo.warm <> [f32_one; f32_one; f32_one].
Proof.
  cbv zeta. split; [vm_compute; reflexivity|]. split; [reflexivity|].
  eexists. split; [vm_compute; reflexivity|].
  split; [vm_compute; reflexivity|].
  repeat split; try reflexivity; vm_compute; discriminate.
Qed.

(** C7 as stated fails: an [open] that fails after the successful one
    leaves the caller's three channels and float format in the working
    spec. *)
Lemma failed_reopen_loses_normalised_spec :
  Demo.after_open = Some (true, Demo.session1, Demo.world1)
  /\ Demo2.after_failed_reopen
     = Some ([false], Demo.session_of Demo2.after_failed_reopen,
             Demo.world_of Demo2.after_failed_reopen)
  /\ nchannels (m_spec (Demo.session_of Demo2.after_failed_reopen)) = 3
  /\ format (m_spec (Demo.session_of Demo2.after_failed_reopen)) = TypeFloat.
Proof.
  split; [vm_compute; reflexivity|]. split; [vm_compute; reflexivity|].
  split; vm_compute; reflexivity.
Qed.

Lemma working_spec_one_channel_uint16_witness :
  (nchannels Demo.plain_spec = 3 /\ format Demo.plain_spec = TypeFloat)
  /\ (nchannels (m_spec Demo.session1) = 1
      /\ format (m_spec Demo.session1) = TypeUInt16)
  /\ (nchannels (m_spec (Demo.session_of Demo2.after_calls_reopen)) = 1
      /\ format (m_spec (Demo.session_of Demo2.after_calls_reopen))
         = TypeUInt16).
Proof.
  split; [split; reflexivity|].
  apply (working_spec_one_channel_uint16 (host := Demo.host)
           "out.dng" 0%nat Create Demo.fresh_session (Demo.world true)
           Demo.session1 Demo.world1 Demo2.calls_reopen
           [true; true; true; true]
           (Demo.session_of Demo2.after_calls_reopen)
           (Demo.world_of Demo2.after_calls_reopen));
    vm_compute; reflexivity.
Defined.

Lemma open_failure_writes_nothing_witness :
  exists s',
    Demo.after_failed_open = Some (false, s', Demo.world true)
    /\ m_errmessage s'
       = String.append "Could not open "
           (String "034"
              (String.append "/readonly/out.dng" (String "034" EmptyString))).
Proof.
  destruct (open_failure_writes_nothing (host := Demo.host)
              "/readonly/out.dng" 0%nat Create Demo.fresh_session
              (Demo.world true) eq_refl)
    as (s' & w' & pending & Ho & He & Hp & _ & ->).
  exists s'. split; [exact Ho|].
  rewrite He, (Hp eq_refl). reflexivity.
Defined.

Lemma caller_spec_never_mutated_witness :
  (forall r,
     caller_mem (Demo.world_of Demo.after_reuse) r = Demo.memory r)
  /\ m_spec Demo.session1
     = set_format TypeUInt16 (with_nchannels 1 Demo.plain_spec)
  /\ caller_mem Demo.world1 0%nat = Demo.plain_spec.
Proof.
  assert (Hreuse : run (host := Demo.host) Demo.reuse Demo.fresh_session
                     (Demo.world true)
                   = Some ([true; true; true],
                           Demo.session_of Demo.after_reuse,
                           Demo.world_of Demo.after_reuse))
    by (vm_compute; reflexivity).
  assert (Hone : run (host := Demo.host) [call_open "out.dng" 0%nat Create]
                   Demo.fresh_session (Demo.world true)
                 = Some ([true], Demo.session1, Demo.world1))
    by (vm_compute; reflexivity).
  split; [|split].
  - apply (proj1 (caller_spec_never_mutated _ _ _ _ _ _ Hreuse)).
  - apply (proj2 (caller_spec_never_mutated _ _ _ _ _ _ Hone)
             "out.dng"%string 0%nat Create eq_refl).
  - apply (proj1 (caller_spec_never_mutated _ _ _ _ _ _ Hone)).
Defined.

End RawFacts.

(** * Further properties of the encoder and of the version string *)

Module CfaCoverage.
Import Cfa Rows.

Lemma lenient_code_is_color_code (c : ascii) :
  In (lenient_code c) color_codes.
Proof.
  unfold lenient_code, spec_color_code, color_codes.
  repeat match goal with
         | |- context [Ascii.eqb c ?k] =>
             destruct (Ascii.eqb c k); [cbn; tauto|]
         end.
  cbn; tauto.
Qed.

Lemma letter_code_injective (a b : ascii) :
  is_filter_letter a = true -> is_filter_letter b = true ->
  lenient_code a = lenient_code b -> a = b.
Proof.
  unfold is_filter_letter, lenient_code, spec_color_code.
  repeat match goal with
         | |- context [Ascii.eqb a ?k] =>
             destruct (Ascii.eqb_spec a k); [subst a|]
         end;
    repeat match goal with
           | |- context [Ascii.eqb b ?k] =>
               destruct (Ascii.eqb_spec b k); [subst b|]
           end;
    intros; try reflexivity; discriminate.
Qed.

Lemma bytes_of_equal_patterns (p q : string) :
  p = q -> pattern_bytes p = pattern_bytes q.
Proof. intros ->. reflexivity. Qed.

(** X1: whatever the input string, every byte of the encoded pattern is
    one of the seven colour codes 0..6. *)
Theorem filter_pattern_bytes_are_color_codes (filter : string) (b : byte) :
  In b (pattern_bytes (filter_str_to_cfapattern filter)) -> In b color_codes.
Proof.
  destruct (Nat.eq_dec (String.length filter) 4%nat) as [Hlen|Hlen].
  - destruct (CfaFacts.four_characters filter Hlen)
      as (c0 & c1 & c2 & c3 & ->).
    rewrite CfaFacts.pattern_bytes_four. cbn [In].
    intros [<-|[<-|[<-|[<-|[]]]]]; apply lenient_code_is_color_code.
  - rewrite CfaFacts.encode_other_length by exact Hlen.
    cbn. intros [<-|[<-|[<-|[<-|[]]]]]; tauto.
Qed.

Lemma filter_pattern_bytes_are_color_codes_witness :
  In x02 color_codes.
Proof.
  apply (filter_pattern_bytes_are_color_codes "RGGB" x02).
  cbn. tauto.
Defined.

(** X2: on strings of four filter letters the encoder is injective: two
    such strings with the same encoded pattern are the same string. *)
Theorem filter_pattern_injective_on_letters (f g : string) :
  String.length f = 4%nat -> String.length g = 4%nat ->
  forallb is_filter_letter (list_ascii_of_string f) = true ->
  forallb is_filter_letter (list_ascii_of_string g) = true ->
  filter_str_to_cfapattern f = filter_str_to_cfapattern g ->
  f = g.
Proof.
  intros Hf Hg Lf Lg Heq. apply bytes_of_equal_patterns in Heq.
  destruct (CfaFacts.four_characters f Hf) as (a0 & a1 & a2 & a3 & ->).
  destruct (CfaFacts.four_characters g Hg) as (b0 & b1 & b2 & b3 & ->).
  rewrite !CfaFacts.pattern_bytes_four in Heq.
  cbn [list_ascii_of_string forallb] in Lf, Lg.
  repeat (apply andb_prop in Lf; destruct Lf as [?Ha Lf]).
  repeat (apply andb_prop in Lg; destruct Lg as [?Hb Lg]).
  injection Heq as E0 E1 E2 E3.
  rewrite (letter_code_injective a0 b0), (letter_code_injective a1 b1),
    (letter_code_injective a2 b2), (letter_code_injective a3 b3);
    (reflexivity || assumption).
Qed.

Lemma filter_pattern_injective_on_letters_witness :
  "GRBG"%string = "GRBG"%string.
Proof.
  apply (filter_pattern_injective_on_letters "GRBG" "GRBG"); reflexivity.
Defined.

(** X3: the fallback cannot be told from a real pattern: a string whose
    length is not 4 is encoded exactly like "RRRR", and so is a string of
    four characters none of which is a filter letter. *)
Theorem filter_pattern_fallback_is_all_red (filter : string) :
  (String.length filter <> 4%nat
   \/ forallb (fun c => negb (is_filter_letter c))
        (list_ascii_of_string filter) = true) ->
  filter_str_to_cfapattern filter = filter_str_to_cfapattern "RRRR".
Proof.
  intros [Hlen | Hnone].
  - rewrite CfaFacts.encode_other_length by exact Hlen. reflexivity.
  - destruct (Nat.eq_dec (String.length filter) 4%nat) as [Hlen|Hlen].
    + destruct (CfaFacts.four_characters filter Hlen)
        as (c0 & c1 & c2 & c3 & ->).
      cbn [list_ascii_of_string forallb] in Hnone.
      repeat (apply andb_prop in Hnone; destruct Hnone as [?H Hnone]).
      rewrite CfaFacts.encode_four, !CfaFacts.channel_index_lenient.
      rewrite !CfaFacts.other_code by (apply negb_true_iff; assumption).
      reflexivity.
    + rewrite CfaFacts.encode_other_length by exact Hlen. reflexivity.
Qed.

Lemma filter_pattern_fallback_is_all_red_witness :
  filter_str_to_cfapattern "rggb" = filter_str_to_cfapattern "RRRR"
  /\ filter_str_to_cfapattern "RGGBRGGB" = filter_str_to_cfapattern "RRRR".
Proof.
  split.
  - apply (filter_pattern_fallback_is_all_red "rggb"). right. reflexivity.
  - apply (filter_pattern_fallback_is_all_red "RGGBRGGB"). left.
    simpl. lia.
Defined.

End CfaCoverage.

Module VersionFacts.
Import Version.

Lemma substring_zero_cons (a : ascii) (k : nat) (v : string) :
  String.substring 0 (S k) (String a v) = String a (String.substring 0 k v).
Proof. reflexivity. Qed.

Lemma substring_zero_zero (v : string) : String.substring 0 0 v = EmptyString.
Proof. destruct v; reflexivity. Qed.

(** Cutting at the first occurrence of [c] splits the string there. *)
Lemma cut_at_first (c : ascii) (v : string) :
  forall k, string_find c v = Some k ->
  exists rest,
    v = String.append (String.substring 0 k v) (String c rest)
    /\ string_find c (String.substring 0 k v) = None.
Proof.
  induction v as [|a v IH]; intros k; cbn [string_find].
  - discriminate.
  - destruct (Ascii.eqb_spec a c) as [->|Hne].
    + intros [= <-]. exists v. rewrite substring_zero_zero. split; reflexivity.
    + destruct (string_find c v) as [j|] eqn:Hj; [|discriminate].
      intros [= <-]. destruct (IH j eq_refl) as (rest & Hv & Hnone).
      exists rest. rewrite substring_zero_cons. split.
      * rewrite Hv at 1. reflexivity.
      * cbn [string_find].
        destruct (Ascii.eqb_spec a c) as [E|_]; [contradiction|].
        rewrite Hnone. reflexivity.
Qed.

(** X4: the version string is made from the first line of the library's
    banner only: the text handed to the comma replacement has no line
    feed, the banner is that text followed by nothing or by a line feed
    and the remaining lines, and a banner without a line feed is taken
    whole. *)
Theorem library_version_is_first_line
    (replace : string -> string -> string -> string) (banner : string) :
  exists line rest,
    raw_imageio_library_version replace banner
    = replace line ", "%string " "%string
    /\ string_find "010" line = None
    /\ (banner = line /\ rest = EmptyString
        \/ banner = String.append line (String "010" rest)).
Proof.
  unfold raw_imageio_library_version. cbv zeta.
  destruct (string_find "010" banner) as [k|] eqn:Hk; cbn [substr0].
  - destruct (cut_at_first _ _ _ Hk) as (rest & Hv & Hnone).
    exists (String.substring 0 k banner), rest.
    split; [reflexivity|]. split; [exact Hnone|]. right. exact Hv.
  - exists banner, EmptyString. split; [reflexivity|].
    split; [exact Hk|]. left. split; reflexivity.
Qed.

Lemma library_version_is_first_line_witness :
  exists line rest,
    raw_imageio_library_version Demo2.replace_demo Demo2.tiff_version
    = Demo2.replace_demo line ", "%string " "%string
    /\ string_find "010" line = None
    /\ (Demo2.tiff_version = line /\ rest = EmptyString
        \/ Demo2.tiff_version = String.append line (String "010" rest)).
Proof.
  apply (library_version_is_first_line Demo2.replace_demo Demo2.tiff_version).
Defined.

End VersionFacts.

(** * Further properties of the session *)

Module RawCoverage.
Import Host Tiff Raw Rows RawFacts.

Section Coverage.
Context {host : HostLib}.

(** The whole result of a successful [open], with the new handle named. *)
Lemma open_succeeds_new_handle name r mode s w :
  fs_open_ok w name (mode_string mode) = true ->
  exists h,
    handles w !! h = None
    /\ open name r mode s w
       = Some (true, opened_session h (caller_mem w r) s,
               with_handles
                 (<[h := mkTIFF name (mode_string mode)
                           (opened_fields (caller_mem w r) s) []]> (handles w))
                 w).
Proof.
  intros Hok. exists (fresh (dom (handles w))). split.
  - apply not_elem_of_dom, is_fresh.
  - apply open_succeeds. exact Hok.
Qed.

Lemma take_array_copy {A : Type} (n : nat) (src dst : list A) :
  length src = n -> firstn n (array_copy n src dst) = src.
Proof.
  intros <-. unfold array_copy.
  rewrite firstn_all, firstn_app, firstn_all, Nat.sub_diag, firstn_0.
  apply app_nil_r.
Qed.

Lemma pattern_length (filter : string) :
  String.length (Cfa.filter_str_to_cfapattern filter) = 4%nat.
Proof.
  destruct (Nat.eq_dec (String.length filter) 4%nat) as [Hlen|Hlen].
  - destruct (CfaFacts.four_characters filter Hlen)
      as (c0 & c1 & c2 & c3 & ->).
    rewrite CfaFacts.encode_four. reflexivity.
  - rewrite CfaFacts.encode_other_length by exact Hlen. reflexivity.
Qed.

(** X5: the size tags a successful [open] writes describe the working
    spec: ImageWidth and ImageLength are its width and height (those of
    the caller's spec), BitsPerSample is eight times the size of its
    pixel format and SamplesPerPixel is its channel count. *)
Theorem open_tags_describe_working_spec name r mode s w :
  fs_open_ok w name (mode_string mode) = true ->
  exists s' w' h t,
    open name r mode s w = Some (true, s', w')
    /\ m_tif s' = Some h /\ handles w' !! h = Some t
    /\ width (m_spec s') = width (caller_mem w r)
    /\ height (m_spec s') = height (caller_mem w r)
    /\ field_writes TIFFTAG_IMAGEWIDTH (tif_fields t)
       = [TV_int (width (m_spec s'))]
    /\ field_writes TIFFTAG_IMAGELENGTH (tif_fields t)
       = [TV_int (height (m_spec s'))]
    /\ field_writes TIFFTAG_BITSPERSAMPLE (tif_fields t)
       = [TV_int (8 * TypeDesc_size (format (m_spec s')))]
    /\ field_writes TIFFTAG_SAMPLESPERPIXEL (tif_fields t)
       = [TV_int (nchannels (m_spec s'))].
Proof.
  intros Hok.
  destruct (open_succeeds_container name r mode s w Hok)
    as (s' & w' & h & t & Hopen & Htif & Hh & -> & Hfields & _).
  exists (opened_session h (caller_mem w r) s), w', h, t.
  repeat (split; [assumption|]). rewrite Hfields. unfold opened_fields.
  destruct (find_attribute (caller_mem w r) "raw:ColorMatrix2" TypeMatrix33);
    repeat split; reflexivity.
Qed.

(** X6: a ColorMatrix1 or asShotNeutral attribute of the caller's spec
    that holds its nine (three) floats is what a successful [open]
    writes to the tag, once, and what the member holds afterwards,
    whatever the member held before. *)
Theorem open_writes_supplied_calibration name r mode s w :
  fs_open_ok w name (mode_string mode) = true ->
  exists s' w' h t,
    open name r mode s w = Some (true, s', w')
    /\ m_tif s' = Some h /\ handles w' !! h = Some t
    /\ (forall pv,
          find_attribute (caller_mem w r) "raw:ColorMatrix1" TypeMatrix33
          = Some pv ->
          length (data_as_floats pv) = 9%nat ->
          field_writes TIFFTAG_COLORMATRIX1 (tif_fields t)
          = [TV_floats 9 (data_as_floats pv)]
          /\ firstn 9 (m_colormatrix1 s') = data_as_floats pv)
    /\ (forall pv,
          find_attribute (caller_mem w r) "raw:asShotNeutral" TypeColor
          = Some pv ->
          length (data_as_floats pv) = 3%nat ->
          field_writes TIFFTAG_ASSHOTNEUTRAL (tif_fields t)
          = [TV_floats 3 (data_as_floats pv)]
          /\ firstn 3 (m_asShotNeutral s') = data_as_floats pv).
Proof.
  intros Hok.
  destruct (open_succeeds_container name r mode s w Hok)
    as (s' & w' & h & t & Hopen & Htif & Hh & -> & Hfields & _).
  exists (opened_session h (caller_mem w r) s), w', h, t.
  repeat (split; [assumption|]). rewrite Hfields.
  unfold opened_fields, opened_session, stored_floats.
  cbn [m_colormatrix1 m_asShotNeutral m_colormatrix2].
  split; intros pv Hpv Hlen; rewrite Hpv;
    rewrite (take_array_copy _ _ _ Hlen);
    (destruct (find_attribute (caller_mem w r) "raw:ColorMatrix2"
                 TypeMatrix33); split; reflexivity).
Qed.

(** X7: the ActiveArea tag holds top, left, bottom, right in that
    order, each reduced to 32 unsigned bits.  For a display window with
    non-negative origin that fits, they are full_y, full_x,
    full_y + full_height and full_x + full_width; a negative origin
    wraps around to origin + 2^32. *)
Theorem open_active_area name r mode s w :
  fs_open_ok w name (mode_string mode) = true ->
  let us := caller_mem w r in
  let top := to_uint32 (full_y us) in
  let left := to_uint32 (full_x us) in
  let bottom := to_uint32 (full_y us + full_height us) in
  let right := to_uint32 (full_x us + full_width us) in
  exists s' w' h t,
    open name r mode s w = Some (true, s', w')
    /\ m_tif s' = Some h /\ handles w' !! h = Some t
    /\ field_writes TIFFTAG_ACTIVEAREA (tif_fields t)
       = [TV_longs [top; left; bottom; right]]
    /\ Forall (fun v => 0 <= v < 2 ^ 32) [top; left; bottom; right]
    /\ (0 <= full_y us -> 0 <= full_height us ->
        full_y us + full_height us < 2 ^ 32 ->
        top = full_y us /\ bottom = full_y us + full_height us)
    /\ (0 <= full_x us -> 0 <= full_width us ->
        full_x us + full_width us < 2 ^ 32 ->
        left = full_x us /\ right = full_x us + full_width us)
    /\ (- 2 ^ 32 <= full_y us < 0 -> top = full_y us + 2 ^ 32)
    /\ (- 2 ^ 32 <= full_x us < 0 -> left = full_x us + 2 ^ 32).
Proof.
  intros Hok us top left bottom right.
  destruct (open_succeeds_container name r mode s w Hok)
    as (s' & w' & h & t & Hopen & Htif & Hh & _ & Hfields & _).
  exists s', w', h, t.
  repeat (split; [assumption|]). split.
  { rewrite Hfields. unfold opened_fields.
    destruct (find_attribute (caller_mem w r) "raw:ColorMatrix2" TypeMatrix33);
      reflexivity. }
  subst top left bottom right. unfold to_uint32.
  change (2 ^ 32) with 4294967296.
  split.
  { repeat constructor; apply Z.mod_pos_bound; lia. }
  split; [|split; [|split]].
  - intros H0 H1 H2. rewrite !Z.mod_small by lia. split; reflexivity.
  - intros H0 H1 H2. rewrite !Z.mod_small by lia. split; reflexivity.
  - intros H0. rewrite <- (Z.mod_add (full_y us) 1 4294967296) by lia.
    apply Z.mod_small. lia.
  - intros H0. rewrite <- (Z.mod_add (full_x us) 1 4294967296) by lia.
    apply Z.mod_small. lia.
Qed.

(** X8: a successful [open] issues its tag writes in one fixed order,
    DNGVersion first and ActiveArea last: 23 writes, and 24 with the
    ColorMatrix2 write in its place when the attribute is there.  No
    mandatory tag is skipped and no row is stored. *)
Theorem open_tag_order name r mode s w :
  fs_open_ok w name (mode_string mode) = true ->
  exists s' w' h t,
    open name r mode s w = Some (true, s', w')
    /\ m_tif s' = Some h /\ handles w' !! h = Some t
    /\ map fst (tif_fields t)
       = tags_before_colormatrix2
         ++ match find_attribute (caller_mem w r) "raw:ColorMatrix2"
                    TypeMatrix33 with
            | Some _ => [TIFFTAG_COLORMATRIX2]
            | None => []
            end
         ++ tags_after_colormatrix2
    /\ (forall tag,
          In tag (tags_before_colormatrix2 ++ tags_after_colormatrix2) ->
          field_value tag (tif_fields t) <> None)
    /\ tif_rows t = [].
Proof.
  intros Hok. destruct (open_succeeds_new_handle name r mode s w Hok)
    as (h & Hfresh & Hopen).
  eexists _, _, h, _. split; [exact Hopen|]. split; [reflexivity|].
  split; [apply lookup_insert_eq|]. cbn [tif_fields tif_rows].
  unfold opened_fields.
  destruct (find_attribute (caller_mem w r) "raw:ColorMatrix2" TypeMatrix33);
    (split; [reflexivity|]; split; [|reflexivity]);
    intros tag Hin; cbn in Hin;
    repeat (destruct Hin as [<-|Hin]; [cbn; discriminate|]);
    destruct Hin.
Qed.

(** X9: the CFAPattern tag is written once, with count 4 and a buffer
    of exactly four bytes: the encoding of the raw:FilterPattern string
    attribute, and four zero bytes when the spec has no such string
    attribute. *)
Theorem open_cfa_pattern_tag name r mode s w :
  fs_open_ok w name (mode_string mode) = true ->
  exists s' w' h t pattern,
    open name r mode s w = Some (true, s', w')
    /\ m_tif s' = Some h /\ handles w' !! h = Some t
    /\ field_writes TIFFTAG_CFAPATTERN (tif_fields t) = [TV_bytes 4 pattern]
    /\ String.length pattern = 4%nat
    /\ pattern
       = Cfa.filter_str_to_cfapattern
           (get_string_attribute (caller_mem w r) "raw:FilterPattern"
              EmptyString)
    /\ (find_attribute (caller_mem w r) "raw:FilterPattern" TypeString = None ->
        Cfa.pattern_bytes pattern = [x00; x00; x00; x00]).
Proof.
  intros Hok.
  destruct (open_succeeds_container name r mode s w Hok)
    as (s' & w' & h & t & Hopen & Htif & Hh & _ & Hfields & _).
  exists s', w', h, t. eexists.
  repeat (split; [assumption|]). split.
  { rewrite Hfields. unfold opened_fields.
    destruct (find_attribute (caller_mem w r) "raw:ColorMatrix2" TypeMatrix33);
      reflexivity. }
  split; [apply pattern_length|]. split; [reflexivity|].
  intros Hnone. unfold get_string_attribute. rewrite Hnone. reflexivity.
Qed.

(** X10: a successful [open] creates exactly one container, under a
    handle that was not in use: it carries the given name, mode "a" for
    AppendSubimage and "w" for every other mode, and no rows.  Every
    other live container, the closed ones and the count of row writes
    are as before. *)
Theorem open_creates_one_container name r mode s w :
  fs_open_ok w name (mode_string mode) = true ->
  exists s' w' h t,
    open name r mode s w = Some (true, s', w')
    /\ m_tif s' = Some h
    /\ handles w !! h = None /\ handles w' !! h = Some t
    /\ tif_name t = name
    /\ tif_mode t = (if bool_decide (mode = AppendSubimage) then "a" else "w")%string
    /\ tif_rows t = []
    /\ (forall h', h' <> h -> handles w' !! h' = handles w !! h')
    /\ closed_files w' = closed_files w
    /\ row_writes w' = row_writes w.
Proof.
  intros Hok. destruct (open_succeeds_new_handle name r mode s w Hok)
    as (h & Hfresh & Hopen).
  eexists _, _, h, _. split; [exact Hopen|]. split; [reflexivity|].
  split; [exact Hfresh|]. split; [apply lookup_insert_eq|].
  repeat (split; [reflexivity|]). split; [|split; reflexivity].
  intros h' Hne. cbn [handles with_handles].
  apply lookup_insert_ne. congruence.
Qed.

(** X11: [open] never closes what the session already holds.  Called on
    a session with a live container, it leaves that container live and
    untouched and makes the session forget its handle, whether the new
    file opens or not; the [close] that follows does not close it
    either. *)
Theorem open_leaks_previous_container name r mode s w h0 t0 ok s1 w1 :
  m_tif s = Some h0 -> handles w !! h0 = Some t0 ->
  open name r mode s w = Some (ok, s1, w1) ->
  m_tif s1 <> Some h0
  /\ handles w1 !! h0 = Some t0
  /\ exists s2 w2,
       close s1 w1 = Some (true, s2, w2)
       /\ handles w2 !! h0 = Some t0.
Proof.
  intros Hs Hw Hopen.
  destruct (fs_open_ok w name (mode_string mode)) eqn:Hok.
  - destruct (open_succeeds_new_handle name r mode s w Hok)
      as (h & Hfresh & Hopen').
    rewrite Hopen in Hopen'. injection Hopen' as -> -> ->.
    assert (Hne : h <> h0) by congruence.
    cbn [m_tif opened_session handles with_handles].
    split; [congruence|].
    split; [rewrite lookup_insert_ne by exact Hne; exact Hw|].
    erewrite close_live;
      [|reflexivity|cbn [handles with_handles]; apply lookup_insert_eq].
    eexists _, _. split; [reflexivity|].
    cbn [handles closed_files with_handles with_closed].
    rewrite lookup_delete_ne, lookup_insert_ne by exact Hne. exact Hw.
  - rewrite open_fails in Hopen by exact Hok. injection Hopen as <- <- <-.
    cbn [m_tif failed_session]. split; [discriminate|]. split; [exact Hw|].
    exists (failed_session name (caller_mem w r) s), w.
    split; [apply close_null; reflexivity | exact Hw].
Qed.





Lemma rows_stored_same_spec s1 s2 ok cs :
  m_spec s1 = m_spec s2 ->
  forall n, rows_stored s1 ok n cs = rows_stored s2 ok n cs.
Proof.
  intros Hspec. induction cs as [|c cs IH]; intros n; [reflexivity|].
  destruct c as [? ? ?| y z format data xstride dither |];
    cbn [rows_stored]; try apply IH.
  unfold native_row, scanline_nbytes, converted_row.
  rewrite Hspec, IH. reflexivity.
Qed.

Lemma rows_fit_same_spec s1 s2 cs :
  m_spec s1 = m_spec s2 -> rows_fit s1 cs = rows_fit s2 cs.
Proof.
  intros Hspec. unfold rows_fit.
  induction cs as [|c cs IH]; [reflexivity|].
  cbn [forallb]. rewrite IH. f_equal.
  destruct c as [? ? ?| y z format data xstride dither |]; try reflexivity.
  unfold row_fits, scanline_nbytes, converted_row. rewrite Hspec. reflexivity.
Qed.

(** A run of [write_scanline] calls on a live session, in full. *)
Lemma run_writes cs : forall s w h t,
  m_tif s = Some h -> handles w !! h = Some t ->
  forallb is_write_call cs = true ->
  rows_fit s cs = true ->
  exists s' w',
    run cs s w = Some (repeat true (length cs), s', w')
    /\ m_tif s' = Some h /\ m_spec s' = m_spec s
    /\ handles w'
       = <[h := mkTIFF (tif_name t) (tif_mode t) (tif_fields t)
                  (tif_rows t
                   ++ rows_stored s (fs_write_ok w) (row_writes w) cs)]>
           (handles w)
    /\ row_writes w' = (row_writes w + length cs)%nat
    /\ closed_files w' = closed_files w.
Proof.
  induction cs as [|c cs IH]; intros s w h t Hs Hw Hcs Hfit.
  - exists s, w. cbn [run rows_stored length repeat].
    split; [reflexivity|]. split; [exact Hs|]. split; [reflexivity|].
    split; [|split; [lia | reflexivity]].
    rewrite app_nil_r. symmetry. apply insert_id.
    rewrite Hw. destruct t; reflexivity.
  - cbn [forallb] in Hcs. apply andb_prop in Hcs as [Hc Hcs].
    destruct c as [? ? ?| y z format data xstride dither |];
      try discriminate.
    unfold rows_fit in Hfit. cbn [forallb] in Hfit.
    apply andb_prop in Hfit as [Hfit0 Hfit]. fold (rows_fit s cs) in Hfit.
    rewrite run_cons. cbn [do_call].
    rewrite (write_scanline_live _ _ _ _ _ _ _ _ _ _ Hs Hw Hfit0).
    cbn [rows_stored].
    set (row := native_row s y z format data xstride dither).
    set (s1 := set_m_scratch row s).
    assert (Hs1 : m_tif s1 = Some h) by exact Hs.
    assert (Hspec : m_spec s1 = m_spec s) by reflexivity.
    assert (Hfit1 : rows_fit s1 cs = true)
      by (rewrite (rows_fit_same_spec s1 s cs Hspec); exact Hfit).
    destruct (fs_write_ok w (row_writes w)) eqn:Hok.
    + destruct (IH s1
                  (with_handles
                     (<[h := add_row (to_uint32 y) row t]> (handles w))
                     (with_row_write w))
                  h (add_row (to_uint32 y) row t) Hs1)
        as (s' & w' & Hrun & Ht & Hsp & Hh & Hn & Hc').
      { cbn [handles with_handles]. apply lookup_insert_eq. }
      { exact Hcs. }
      { exact Hfit1. }
      rewrite Hrun. exists s', w'.
      cbn [length repeat]. split; [reflexivity|]. split; [exact Ht|].
      split; [congruence|]. split; [|split].
      * rewrite Hh.
        cbn [handles with_handles with_row_write fs_write_ok row_writes
             add_row tif_name tif_mode tif_fields tif_rows].
        rewrite insert_insert_eq, <- app_assoc.
        rewrite (rows_stored_same_spec s1 s _ cs Hspec). reflexivity.
      * rewrite Hn. cbn [row_writes with_handles with_row_write]. lia.
      * rewrite Hc'. reflexivity.
    + destruct (IH s1 (with_row_write w) h t Hs1)
        as (s' & w' & Hrun & Ht & Hsp & Hh & Hn & Hc');
        [exact Hw|exact Hcs|exact Hfit1|].
      rewrite Hrun. exists s', w'.
      cbn [length repeat]. split; [reflexivity|]. split; [exact Ht|].
      split; [congruence|]. split; [|split].
      * rewrite Hh.
        cbn [handles with_row_write fs_write_ok row_writes app].
        rewrite (rows_stored_same_spec s1 s _ cs Hspec). reflexivity.
      * rewrite Hn. cbn [row_writes with_row_write]. lia.
      * rewrite Hc'. reflexivity.
Qed.

(** The run stops without a result at the first row that does not
    fit. *)
Lemma run_writes_unfit cs : forall s w h t,
  m_tif s = Some h -> handles w !! h = Some t ->
  forallb is_write_call cs = true ->
  rows_fit s cs = false ->
  run cs s w = None.
Proof.
  induction cs as [|c cs IH]; intros s w h t Hs Hw Hcs Hfit.
  - discriminate.
  - cbn [forallb] in Hcs. apply andb_prop in Hcs as [Hc Hcs].
    destruct c as [? ? ?| y z format data xstride dither |];
      try discriminate.
    unfold rows_fit in Hfit. cbn [forallb] in Hfit.
    fold (rows_fit s cs) in Hfit.
    rewrite run_cons. cbn [do_call].
    destruct (row_fits s y z format data xstride dither) eqn:Hfit0.
    + cbn [andb] in Hfit.
      rewrite (write_scanline_live _ _ _ _ _ _ _ _ _ _ Hs Hw Hfit0).
      set (row := native_row s y z format data xstride dither).
      set (s1 := set_m_scratch row s).
      assert (Hfit1 : rows_fit s1 cs = false)
        by (rewrite (rows_fit_same_spec s1 s cs eq_refl); exact Hfit).
      destruct (fs_write_ok w (row_writes w)).
      * rewrite (IH s1 _ h (add_row (to_uint32 y) row t) Hs); try assumption;
          [reflexivity|].
        cbn [handles with_handles]. apply lookup_insert_eq.
      * rewrite (IH s1 _ h t Hs); try assumption; reflexivity.
    + rewrite write_scanline_unfit by exact Hfit0. reflexivity.
Qed.

(** X13: a series of [write_scanline] calls on a live session, each
    with a row that fits, all return success and issue one row write
    each; the container ends up with the rows whose row write
    succeeded, in call order, after the rows it had, each under its row
    index reduced to 32 unsigned bits, and the rows whose write failed
    are missing from it.  With a row that does not fit among them, the
    series returns no result. *)
Theorem write_calls_store_successful_rows cs s w h t :
  m_tif s = Some h -> handles w !! h = Some t ->
  forallb is_write_call cs = true ->
  (rows_fit s cs = true ->
   exists s' w' t',
     run cs s w = Some (repeat true (length cs), s', w')
     /\ handles w' !! h = Some t'
     /\ tif_fields t' = tif_fields t
     /\ tif_rows t'
        = tif_rows t ++ rows_stored s (fs_write_ok w) (row_writes w) cs
     /\ row_writes w' = (row_writes w + length cs)%nat
     /\ (forall h', h' <> h -> handles w' !! h' = handles w !! h'))
  /\ (rows_fit s cs = false -> run cs s w = None).
Proof.
  intros Hs Hw Hcs. split.
  - intros Hfit.
    destruct (run_writes cs s w h t Hs Hw Hcs Hfit)
      as (s' & w' & Hrun & _ & _ & Hh & Hn & _).
    eexists s', w', _. split; [exact Hrun|]. rewrite Hh.
    split; [apply lookup_insert_eq|]. split; [reflexivity|].
    split; [reflexivity|]. split; [exact Hn|].
    intros h' Hne. apply lookup_insert_ne. congruence.
  - apply (run_writes_unfit cs s w h t Hs Hw Hcs).
Qed.

(** X14: [write_scanline] has no guard of its own: once [close] has
    returned, on a session that was open or not, every further
    [write_scanline] hands the null pointer to the library, which is
    undefined behaviour. *)
Theorem write_scanline_after_close_faults s w y z format data xstride dither :
  (m_tif s = nullptr
   \/ exists h t, m_tif s = Some h /\ handles w !! h = Some t) ->
  exists s1 w1,
    close s w = Some (true, s1, w1)
    /\ m_tif s1 = nullptr
    /\ write_scanline y z format data xstride dither s1 w1 = None.
Proof.
  intros [Hs | (h & t & Hs & Hw)].
  - exists s, w. rewrite close_null by exact Hs.
    split; [reflexivity|]. split; [exact Hs|].
    apply write_scanline_not_live. left. exact Hs.
  - rewrite (close_live _ _ _ _ Hs Hw). eexists _, _.
    split; [reflexivity|]. split; [reflexivity|].
    apply write_scanline_not_live. left. reflexivity.
Qed.

Lemma run_app cs1 : forall cs2 s w,
  run (cs1 ++ cs2) s w
  = match run cs1 s w with
    | Some (r1, s1, w1) =>
        match run cs2 s1 w1 with
        | Some (r2, s2, w2) => Some (r1 ++ r2, s2, w2)
        | None => None
        end
    | None => None
    end.
Proof.
  induction cs1 as [|c cs1 IH]; intros cs2 s w.
  - cbn [app]. change (run [] s w) with (Some ([] : list bool, s, w)).
    cbv beta iota.
    destruct (run cs2 s w) as [[[r2 s2] w2]|]; reflexivity.
  - cbn [app]. rewrite !run_cons.
    destruct (do_call c s w) as [[[r s1] w1]|]; [|reflexivity].
    rewrite IH.
    destruct (run cs1 s1 w1) as [[[r1 s2] w2]|]; [|reflexivity].
    destruct (run cs2 s2 w2) as [[[r2 s3] w3]|]; reflexivity.
Qed.

(** X15: a complete session, an [open] that succeeds, any number of
    [write_scanline] calls with rows that fit the working spec, and
    [close], returns success throughout and leaves the handle table as
    it found it and exactly one more closed container: the one named in
    [open], with the tags of [open] and the rows whose write succeeded.
    With a row that does not fit among them, the session returns no
    result. *)
Theorem complete_session_closes_one_container name r mode s w cs :
  fs_open_ok w name (mode_string mode) = true ->
  forallb is_write_call cs = true ->
  let s1 := set_m_spec (working_spec (caller_mem w r)) s in
  (rows_fit s1 cs = true ->
   exists s' w',
     run (call_open name r mode :: cs ++ [call_close]) s w
     = Some (true :: repeat true (length cs) ++ [true], s', w')
     /\ m_tif s' = nullptr
     /\ handles w' = handles w
     /\ closed_files w'
        = closed_files w
          ++ [mkTIFF name (mode_string mode)
                (opened_fields (caller_mem w r) s)
                (rows_stored s1 (fs_write_ok w) (row_writes w) cs)])
  /\ (rows_fit s1 cs = false ->
      run (call_open name r mode :: cs ++ [call_close]) s w = None).
Proof.
  intros Hok Hcs s1.
  destruct (open_succeeds_new_handle name r mode s w Hok)
    as (h & Hfresh & Hopen).
  set (t0 := mkTIFF name (mode_string mode)
               (opened_fields (caller_mem w r) s) []) in *.
  set (so := opened_session h (caller_mem w r) s) in *.
  set (w1 := with_handles (<[h := t0]> (handles w)) w) in *.
  assert (Hw1 : handles w1 !! h = Some t0) by apply lookup_insert_eq.
  assert (Hspec : m_spec so = m_spec s1) by reflexivity.
  split.
  - intros Hfit. rewrite <- (rows_fit_same_spec so s1 cs Hspec) in Hfit.
    destruct (run_writes cs so w1 h t0 eq_refl Hw1 Hcs Hfit)
      as (s2 & w2 & Hrun & Ht2 & Hsp2 & Hh2 & Hn2 & Hc2).
    rewrite (rows_stored_same_spec so s1 _ cs Hspec) in Hh2.
    assert (Hlive : handles w2 !! h
                    = Some (mkTIFF name (mode_string mode)
                              (opened_fields (caller_mem w r) s)
                              (rows_stored s1 (fs_write_ok w) (row_writes w)
                                 cs))).
    { rewrite Hh2. apply lookup_insert_eq. }
    exists (set_m_tif nullptr s2),
      (with_closed
         (mkTIFF name (mode_string mode) (opened_fields (caller_mem w r) s)
            (rows_stored s1 (fs_write_ok w) (row_writes w) cs))
         (with_handles (delete h (handles w2)) w2)).
    split.
    { rewrite run_cons. cbn [do_call]. rewrite Hopen.
      rewrite run_app, Hrun, run_cons. cbn [do_call].
      rewrite (close_live _ _ _ _ Ht2 Hlive). reflexivity. }
    split; [reflexivity|].
    cbn [handles closed_files with_closed with_handles]. split.
    + rewrite Hh2. subst w1. cbn [handles with_handles].
      rewrite insert_insert_eq, delete_insert_eq. apply delete_id.
      exact Hfresh.
    + rewrite Hc2. reflexivity.
  - intros Hfit. rewrite <- (rows_fit_same_spec so s1 cs Hspec) in Hfit.
    rewrite run_cons. cbn [do_call]. rewrite Hopen.
    rewrite run_app.
    rewrite (run_writes_unfit cs so w1 h t0 eq_refl Hw1 Hcs Hfit).
    reflexivity.
Qed.

Lemma do_call_pattern_dimensions c s w r s' w' :
  do_call c s w = Some (r, s', w') ->
  m_bayerPatternDimensions s' = m_bayerPatternDimensions s.
Proof.
  destruct c as [name userspec mode | y z format data xstride dither | ];
    cbn [do_call].
  - destruct (fs_open_ok w name (mode_string mode)) eqn:Hok.
    + rewrite open_succeeds by exact Hok. intros [= _ <- _]. reflexivity.
    + rewrite open_fails by exact Hok. intros [= _ <- _]. reflexivity.
  - intros Hwrite.
    destruct (write_scanline_returns _ _ _ _ _ _ _ _ _ _ _ Hwrite)
      as (h & t & _ & _ & _ & _ & -> & _).
    reflexivity.
  - destruct (m_tif s) as [h|] eqn:Hs.
    + destruct (handles w !! h) as [t|] eqn:Hw.
      * rewrite (close_live _ _ _ _ Hs Hw). intros [= _ <- _]. reflexivity.
      * rewrite (close_dangling _ _ _ Hs Hw). discriminate.
    + rewrite close_null by exact Hs. intros [= _ <- _]. reflexivity.
Qed.

Lemma run_pattern_dimensions cs : forall s w rs s' w',
  run cs s w = Some (rs, s', w') ->
  m_bayerPatternDimensions s' = m_bayerPatternDimensions s.
Proof.
  induction cs as [|c cs IH]; intros s w rs s' w'.
  - intros [= _ <- _]. reflexivity.
  - rewrite run_cons.
    destruct (do_call c s w) as [[[r0 sa] wa]|] eqn:Hc; [|discriminate].
    destruct (run cs sa wa) as [[[ra sb] wb]|] eqn:Hr; [|discriminate].
    intros [= _ <- _]. rewrite (IH _ _ _ _ _ Hr).
    exact (do_call_pattern_dimensions _ _ _ _ _ _ Hc).
Qed.

(** X16: no call ever changes the CFA repeat pattern dimensions: after
    any series of calls on a constructed session, whatever was opened
    and written before, an [open] that succeeds writes {2,2} to the
    CFARepeatPatternDim tag. *)
Theorem pattern_dimensions_stay_2x2 p cs w rs s1 w1 name r mode :
  run cs (RawOutput_new p) w = Some (rs, s1, w1) ->
  fs_open_ok w1 name (mode_string mode) = true ->
  exists s2 w2 h t,
    open name r mode s1 w1 = Some (true, s2, w2)
    /\ m_tif s2 = Some h /\ handles w2 !! h = Some t
    /\ m_bayerPatternDimensions s2 = [2; 2]
    /\ field_writes TIFFTAG_CFAREPEATPATTERNDIM (tif_fields t)
       = [TV_shorts [2; 2]].
Proof.
  intros Hrun Hok.
  assert (Hdim : m_bayerPatternDimensions s1 = [2; 2])
    by exact (run_pattern_dimensions _ _ _ _ _ _ Hrun).
  destruct (open_succeeds_container name r mode s1 w1 Hok)
    as (s2 & w2 & h & t & Hopen & Htif & Hh & -> & Hfields & _).
  exists (opened_session h (caller_mem w1 r) s1), w2, h, t.
  split; [exact Hopen|]. split; [exact Htif|]. split; [exact Hh|].
  split; [exact Hdim|].
  rewrite Hfields. unfold opened_fields. rewrite Hdim.
  destruct (find_attribute (caller_mem w1 r) "raw:ColorMatrix2" TypeMatrix33);
    reflexivity.
Qed.


End Coverage.

(** ** The statements at concrete sessions *)

Lemma open_tags_describe_working_spec_witness :
  exists s' w' h t,
    Demo.after_open = Some (true, s', w')
    /\ handles w' !! h = Some t
    /\ field_writes TIFFTAG_BITSPERSAMPLE (tif_fields t)
       = [TV_int (8 * TypeDesc_size (format (m_spec s')))]
    /\ field_writes TIFFTAG_SAMPLESPERPIXEL (tif_fields t)
       = [TV_int (nchannels (m_spec s'))].
Proof.
  destruct (open_tags_describe_working_spec (host := Demo.host)
              "out.dng" 0%nat Create Demo.fresh_session (Demo.world true)
              eq_refl)
    as (s' & w' & h & t & Ho & _ & Hh & _ & _ & _ & _ & Hb & Hn).
  exists s', w', h, t. repeat split; assumption.
Defined.

Lemma open_writes_supplied_calibration_witness :
  exists s' w' h t,
    Demo.after_open_calibrated = Some (true, s', w')
    /\ handles w' !! h = Some t
    /\ field_writes TIFFTAG_COLORMATRIX1 (tif_fields t)
       = [TV_floats 9 Demo.twos]
    /\ field_writes TIFFTAG_ASSHOTNEUTRAL (tif_fields t)
       = [TV_floats 3 Demo.warm].
Proof.
  destruct (open_writes_supplied_calibration (host := Demo.host)
              "cal.dng" 1%nat Create Demo.fresh_session (Demo.world true)
              eq_refl)
    as (s' & w' & h & t & Ho & _ & Hh & H1 & H3).
  exists s', w', h, t. split; [exact Ho|]. split; [exact Hh|]. split.
  - exact (proj1 (H1 (mkParamValue "raw:ColorMatrix1" TypeMatrix33
                        (PD_floats Demo.twos)) eq_refl eq_refl)).
  - exact (proj1 (H3 (mkParamValue "raw:asShotNeutral" TypeColor
                        (PD_floats Demo.warm)) eq_refl eq_refl)).
Defined.

Lemma open_active_area_witness :
  (exists s' w' h t,
     Demo.after_open = Some (true, s', w')
     /\ handles w' !! h = Some t
     /\ field_writes TIFFTAG_ACTIVEAREA (tif_fields t)
        = [TV_longs [0; 0; 4; 4]])
  /\ (exists s' w' h t,
        open (host := Demo.host) "offset.dng" 0%nat Create
          Demo.fresh_session Demo2.offset_world
        = Some (true, s', w')
        /\ handles w' !! h = Some t
        /\ field_writes TIFFTAG_ACTIVEAREA (tif_fields t)
           = [TV_longs [4294967294; 4294967295; 6; 7]]).
Proof.
  split.
  - destruct (open_active_area (host := Demo.host)
                "out.dng" 0%nat Create Demo.fresh_session (Demo.world true)
                eq_refl)
      as (s' & w' & h & t & Ho & _ & Hh & Hw & _).
    exists s', w', h, t. split; [exact Ho|]. split; [exact Hh|]. exact Hw.
  - destruct (open_active_area (host := Demo.host)
                "offset.dng" 0%nat Create Demo.fresh_session
                Demo2.offset_world eq_refl)
      as (s' & w' & h & t & Ho & _ & Hh & Hw & _).
    exists s', w', h, t. split; [exact Ho|]. split; [exact Hh|]. exact Hw.
Defined.

Lemma open_tag_order_witness :
  exists s' w' h t,
    Demo.after_open = Some (true, s', w')
    /\ handles w' !! h = Some t
    /\ map fst (tif_fields t)
       = tags_before_colormatrix2 ++ tags_after_colormatrix2
    /\ tif_rows t = [].
Proof.
  destruct (open_tag_order (host := Demo.host)
              "out.dng" 0%nat Create Demo.fresh_session (Demo.world true)
              eq_refl)
    as (s' & w' & h & t & Ho & _ & Hh & Hord & _ & Hrows).
  exists s', w', h, t. repeat split; assumption.
Defined.

Lemma open_cfa_pattern_tag_witness :
  (exists s' w' h t pattern,
     Demo.after_open = Some (true, s', w')
     /\ handles w' !! h = Some t
     /\ field_writes TIFFTAG_CFAPATTERN (tif_fields t) = [TV_bytes 4 pattern]
     /\ Cfa.pattern_bytes pattern = [x00; x01; x01; x02])
  /\ (exists s' w' h t pattern,
        Demo.after_open_bare = Some (true, s', w')
        /\ handles w' !! h = Some t
        /\ field_writes TIFFTAG_CFAPATTERN (tif_fields t)
           = [TV_bytes 4 pattern]
        /\ Cfa.pattern_bytes pattern = [x00; x00; x00; x00]).
Proof.
  split.
  - destruct (open_cfa_pattern_tag (host := Demo.host)
                "out.dng" 0%nat Create Demo.fresh_session (Demo.world true)
                eq_refl)
      as (s' & w' & h & t & pattern & Ho & _ & Hh & Hw & _ & Hpat & _).
    exists s', w', h, t, pattern.
    split; [exact Ho|]. split; [exact Hh|]. split; [exact Hw|].
    rewrite Hpat. reflexivity.
  - destruct (open_cfa_pattern_tag (host := Demo.host)
                "bare.dng" 2%nat Create Demo.fresh_session (Demo.world true)
                eq_refl)
      as (s' & w' & h & t & pattern & Ho & _ & Hh & Hw & _ & _ & Hnone).
    exists s', w', h, t, pattern.
    split; [exact Ho|]. split; [exact Hh|]. split; [exact Hw|].
    apply Hnone. reflexivity.
Defined.

Lemma open_creates_one_container_witness :
  exists s' w' h t,
    Demo.after_open = Some (true, s', w')
    /\ handles (Demo.world true) !! h = None
    /\ handles w' !! h = Some t
    /\ tif_name t = "out.dng"%string /\ tif_mode t = "w"%string.
Proof.
  destruct (open_creates_one_container (host := Demo.host)
              "out.dng" 0%nat Create Demo.fresh_session (Demo.world true)
              eq_refl)
    as (s' & w' & h & t & Ho & _ & Hf & Hh & Hn & Hm & _).
  exists s', w', h, t. repeat split; assumption.
Defined.

Lemma open_leaks_previous_container_witness :
  m_tif (Demo.session_of Demo2.after_reopen) <> Some 0%nat
  /\ handles (Demo.world_of Demo2.after_reopen) !! 0%nat
     = Some Demo2.container1.
Proof.
  assert (H1 : m_tif Demo.session1 = Some 0%nat)
    by (vm_compute; reflexivity).
  assert (H2 : handles Demo.world1 !! 0%nat = Some Demo2.container1)
    by (vm_compute; reflexivity).
  assert (H3 : open (host := Demo.host) "second.dng" 2%nat Create
                 Demo.session1 Demo.world1
               = Some (true, Demo.session_of Demo2.after_reopen,
                       Demo.world_of Demo2.after_reopen))
    by (vm_compute; reflexivity).
  destruct (open_leaks_previous_container _ _ _ _ _ _ _ _ _ _ H1 H2 H3)
    as (Hne & Hlive & _).
  split; assumption.
Defined.


Lemma write_calls_store_successful_rows_witness :
  (exists s' w' t',
     run (host := Demo.host) Demo2.three_rows
       (Demo.session_of Demo2.after_open_flaky)
       (Demo.world_of Demo2.after_open_flaky)
     = Some ([true; true; true], s', w')
     /\ handles w' !! 0%nat = Some t'
     /\ map fst (tif_rows t') = [0; 2])
  /\ run (host := Demo.host) Demo2.rows_with_short
       (Demo.session_of Demo2.after_open_flaky)
       (Demo.world_of Demo2.after_open_flaky)
     = None.
Proof.
  assert (H1 : m_tif (Demo.session_of Demo2.after_open_flaky) = Some 0%nat)
    by (vm_compute; reflexivity).
  assert (H2 : handles (Demo.world_of Demo2.after_open_flaky) !! 0%nat
               = Some Demo2.container_flaky)
    by (vm_compute; reflexivity).
  split.
  - destruct (proj1 (write_calls_store_successful_rows (host := Demo.host)
                       Demo2.three_rows _ _ _ _ H1 H2 eq_refl))
      as (s' & w' & t' & Hrun & Hh & _ & Hrows & _).
    { vm_compute. reflexivity. }
    exists s', w', t'. split; [exact Hrun|]. split; [exact Hh|].
    rewrite Hrows. vm_compute. reflexivity.
  - apply (proj2 (write_calls_store_successful_rows (host := Demo.host)
                    Demo2.rows_with_short _ _ _ _ H1 H2 eq_refl)).
    vm_compute. reflexivity.
Defined.

Lemma write_scanline_after_close_faults_witness :
  exists s1 w1,
    close Demo.session1 Demo.world1 = Some (true, s1, w1)
    /\ write_scanline (host := Demo.host) 1 0 TypeUInt16 Demo.row AutoStride 0
         s1 w1
       = None.
Proof.
  assert (H1 : m_tif Demo.session1 = Some 0%nat)
    by (vm_compute; reflexivity).
  assert (H2 : handles Demo.world1 !! 0%nat = Some Demo2.container1)
    by (vm_compute; reflexivity).
  destruct (write_scanline_after_close_faults (host := Demo.host)
              Demo.session1 Demo.world1 1 0 TypeUInt16 Demo.row AutoStride 0
              (or_intror (ex_intro _ 0%nat
                            (ex_intro _ Demo2.container1 (conj H1 H2)))))
    as (s1 & w1 & Hc & _ & Hw).
  exists s1, w1. split; assumption.
Defined.

Lemma complete_session_closes_one_container_witness :
  (exists s' w',
     run (host := Demo.host)
       (call_open "flaky.dng" 0%nat Create
        :: Demo2.three_rows ++ [call_close])
       Demo.fresh_session Demo2.flaky_world
     = Some ([true; true; true; true; true], s', w')
     /\ handles w' = handles Demo2.flaky_world
     /\ map (fun t => map fst (tif_rows t)) (closed_files w') = [[0; 2]])
  /\ run (host := Demo.host)
       (call_open "flaky.dng" 0%nat Create
        :: Demo2.rows_with_short ++ [call_close])
       Demo.fresh_session Demo2.flaky_world
     = None.
Proof.
  split.
  - destruct (proj1 (complete_session_closes_one_container
                       (host := Demo.host)
                       "flaky.dng" 0%nat Create Demo.fresh_session
                       Demo2.flaky_world Demo2.three_rows eq_refl eq_refl))
      as (s' & w' & Hrun & _ & Hh & Hc).
    { vm_compute. reflexivity. }
    exists s', w'. split; [exact Hrun|]. split; [exact Hh|].
    rewrite Hc. vm_compute. reflexivity.
  - apply (proj2 (complete_session_closes_one_container
                    (host := Demo.host)
                    "flaky.dng" 0%nat Create Demo.fresh_session
                    Demo2.flaky_world Demo2.rows_with_short eq_refl eq_refl)).
    vm_compute. reflexivity.
Defined.


Lemma pattern_dimensions_stay_2x2_witness :
  exists s2 w2 h t,
    open (host := Demo.host) "third.dng" 0%nat Create
      (Demo.session_of Demo.after_reuse) (Demo.world_of Demo.after_reuse)
    = Some (true, s2, w2)
    /\ handles w2 !! h = Some t
    /\ field_writes TIFFTAG_CFAREPEATPATTERNDIM (tif_fields t)
       = [TV_shorts [2; 2]].
Proof.
  assert (Hrun : run (host := Demo.host) Demo.reuse (RawOutput_new nullptr)
                   (Demo.world true)
                 = Some ([true; true; true],
                         Demo.session_of Demo.after_reuse,
                         Demo.world_of Demo.after_reuse))
    by (vm_compute; reflexivity).
  assert (Hok : fs_open_ok (Demo.world_of Demo.after_reuse) "third.dng"
                  (mode_string Create) = true)
    by (vm_compute; reflexivity).
  destruct (pattern_dimensions_stay_2x2 _ _ _ _ _ _ "third.dng"%string
              0%nat Create Hrun Hok)
    as (s2 & w2 & h & t & Ho & _ & Hh & _ & Hf).
  exists s2, w2, h, t. repeat split; assumption.
Defined.

Lemma close_twice_witness :
  exists s1 w1,
    close Demo.session1 Demo.world1 = Some (true, s1, w1)
    /\ close s1 w1 = Some (true, s1, w1).
Proof.
  assert (H1 : m_tif Demo.session1 = Some 0%nat)
    by (vm_compute; reflexivity).
  assert (H2 : handles Demo.world1 !! 0%nat = Some Demo2.container1)
    by (vm_compute; reflexivity).
  apply (close_twice Demo.session1 Demo.world1
           (or_intror (ex_intro _ 0%nat
                         (ex_intro _ Demo2.container1 (conj H1 H2))))).
Defined.

Lemma close_after_failed_open_witness :
  close (Demo.session_of Demo.after_failed_open)
    (Demo.world_of Demo.after_failed_open)
  = Some (true, Demo.session_of Demo.after_failed_open,
          Demo.world_of Demo.after_failed_open).
Proof.
  assert (H : open (host := Demo.host) "/readonly/out.dng" 0%nat Create
                Demo.fresh_session (Demo.world true)
              = Some (false, Demo.session_of Demo.after_failed_open,
                      Demo.world_of Demo.after_failed_open))
    by (vm_compute; reflexivity).
  apply (close_after_failed_open _ _ _ _ _ _ _ H).
Defined.


End RawCoverage.
